(** * Pricing engine: a shallow embedding of [pricing_engine.py]

    The development follows the Python module top to bottom: the exception
    class, the [PriceType] enumeration, the [PriceEntry] dataclass, the
    [PricingEngine] class with its [PRIORITY] table, the static method
    [normalize_product_code] and the method [get_best_price].

    Modelling choices.
    - Python [int] is [Z].
    - Python [str] is [string], read as the UTF-8 encoding of the text.
      [str.isdigit] and [int] follow the Unicode tables of digits (version
      14.0, the one of CPython 3.11).  [str.upper] is modelled on ASCII
      letters, a..z to A..Z, and leaves every other byte as it is: this is
      [str.upper] on every text without other cased letters, and on every
      text it decides [s.upper().startswith("P")] as Python does, since [P]
      and [p] are the only characters whose upper case starts with [P].
    - A price is a rational number [Q]: every Python integer and every finite
      float is one, and Python compares them exactly.  Two prices are
      compared with [Qeq] and [Qlt], as [==] and [<] do.
    - A dictionary [Dict[int, str]] is a [gmap Z string] and [d.get(k)] is
      the lookup [d !! k].
    - [raise] is the left injection of a sum type, threaded by a small error
      monad; the exceptions are [PricingError], the class of the module, and
      [ValueError], which the built-in [int] raises. *)

From Stdlib Require Import ZArith QArith Lia Ascii String List DecimalString.
From Stdlib Require DecimalN DecimalPos DecimalFacts.
From stdpp Require Import gmap.
Import ListNotations.

Local Open Scope string_scope.
Local Open Scope Z_scope.

(** ** Strings *)

Module Str.

(** [c.upper()] on an ASCII character. *)
Definition upper_char (c : ascii) : ascii :=
  let n := nat_of_ascii c in
  if ((97 <=? n) && (n <=? 122))%nat then ascii_of_nat (n - 32) else c.

(** [s.upper()] *)
Fixpoint upper (s : string) : string :=
  match s with
  | EmptyString => EmptyString
  | String c s' => String (upper_char c) (upper s')
  end.

(** [s.startswith(p)] *)
Definition startswith (s p : string) : bool := String.prefix p s.

Definition is_digit_char (c : ascii) : bool :=
  let n := nat_of_ascii c in ((48 <=? n) && (n <=? 57))%nat.

Fixpoint all_digits (s : string) : bool :=
  match s with
  | EmptyString => true
  | String c s' => is_digit_char c && all_digits s'
  end.

(** A string of the ASCII digits 0 to 9 with at least one character.  On
    such a string [s.isdigit()] holds; what [s.isdigit()] is on every string
    is [Unicode.isdigit] below. *)
Definition isdigit (s : string) : bool :=
  match s with
  | EmptyString => false
  | _ => all_digits s
  end.

Definition digit_value (c : ascii) : N := N.of_nat (nat_of_ascii c - 48).

(** Horner evaluation of a digit string, most significant digit first. *)
Fixpoint int_digits (acc : N) (s : string) : N :=
  match s with
  | EmptyString => acc
  | String c s' => int_digits (10 * acc + digit_value c) s'
  end.

(** The number that a string of the ASCII digits 0 to 9 denotes.  On such a
    string this is [int(s)]; what [int(s)] is on every string of digits is
    [py_int] below. *)
Definition int (s : string) : Z := Z.of_N (int_digits 0 s).

(** The decimal digits of a natural number, without leading zeros. *)
Definition str_N (n : N) : string := NilEmpty.string_of_uint (N.to_uint n).

(** [str(z)] for an integer. *)
Definition str (z : Z) : string :=
  if z <? 0 then String "-" (str_N (Z.abs_N z)) else str_N (Z.abs_N z).

Fixpoint zeros (n : nat) : string :=
  match n with
  | O => EmptyString
  | S n' => String "0" (zeros n')
  end.

(** [format(z, "03d")]: the sign, then zeros up to a total width of three,
    then the digits; nothing is cut off when the number is wider. *)
Definition format_03d (z : Z) : string :=
  let sign := if z <? 0 then "-" else "" in
  let digits := str_N (Z.abs_N z) in
  sign ++ zeros (3 - String.length sign - String.length digits) ++ digits.

(** The first character is [P] or [p]. *)
Definition starts_with_p (s : string) : bool :=
  match s with
  | String c _ => Ascii.eqb c "P" || Ascii.eqb c "p"
  | EmptyString => false
  end.

End Str.

(** ** Unicode digits

    [str.isdigit] holds for the characters whose Unicode numeric type is
    Decimal or Digit; [int] reads the characters of type Decimal only.  The
    decimal digits come in runs of ten consecutive code points with the
    values 0 to 9, so their table is the list of the first code point of
    every run. *)

Module Unicode.

Local Open Scope N_scope.

Definition continuation (b : N) : bool := (128 <=? b) && (b <=? 191).

(** The code points of a UTF-8 encoded text; [None] when the bytes are not
    the encoding of a text. *)
Fixpoint decode_utf8 (s : string) : option (list N) :=
  match s with
  | EmptyString => Some []
  | String c0 s1 =>
      let b0 := N_of_ascii c0 in
      if b0 <? 128 then option_map (cons b0) (decode_utf8 s1)
      else if (194 <=? b0) && (b0 <=? 223) then
        match s1 with
        | String c1 s2 =>
            let b1 := N_of_ascii c1 in
            if continuation b1
            then option_map (cons ((b0 - 192) * 64 + (b1 - 128))) (decode_utf8 s2)
            else None
        | _ => None
        end
      else if (224 <=? b0) && (b0 <=? 239) then
        match s1 with
        | String c1 (String c2 s3) =>
            let b1 := N_of_ascii c1 in
            let b2 := N_of_ascii c2 in
            let cp := (b0 - 224) * 4096 + (b1 - 128) * 64 + (b2 - 128) in
            if continuation b1 && continuation b2
               && (2048 <=? cp) && negb ((55296 <=? cp) && (cp <=? 57343))
            then option_map (cons cp) (decode_utf8 s3)
            else None
        | _ => None
        end
      else if (240 <=? b0) && (b0 <=? 244) then
        match s1 with
        | String c1 (String c2 (String c3 s4)) =>
            let b1 := N_of_ascii c1 in
            let b2 := N_of_ascii c2 in
            let b3 := N_of_ascii c3 in
            let cp := (b0 - 240) * 262144 + (b1 - 128) * 4096
                      + (b2 - 128) * 64 + (b3 - 128) in
            if continuation b1 && continuation b2 && continuation b3
               && (65536 <=? cp) && (cp <=? 1114111)
            then option_map (cons cp) (decode_utf8 s4)
            else None
        | _ => None
        end
      else None
  end.

(** The first code point of every run of decimal digits. *)
Definition decimal_runs : list N :=
  [ 48; 1632; 1776; 1984; 2406; 2534; 2662; 2790; 2918; 3046; 3174; 3302;
    3430; 3558; 3664; 3792; 3872; 4160; 4240; 6112; 6160; 6470; 6608; 6784;
    6800; 6992; 7088; 7232; 7248; 42528; 43216; 43264; 43472; 43504; 43600;
    44016; 65296; 66720; 68912; 69734; 69872; 69942; 70096; 70384; 70736;
    70864; 71248; 71360; 71472; 71904; 72016; 72784; 73040; 73120; 92768;
    92864; 93008; 120782; 120792; 120802; 120812; 120822; 123200; 123632;
    125264; 130032 ].

(** The ranges of the characters of numeric type Digit: superscripts,
    subscripts, circled and parenthesized digits and the like. *)
Definition digit_ranges : list (N * N) :=
  [ (178, 179); (185, 185); (4969, 4977); (6618, 6618); (8304, 8304);
    (8308, 8313); (8320, 8329); (9312, 9320); (9332, 9340); (9352, 9360);
    (9450, 9450); (9461, 9469); (9471, 9471); (10102, 10110); (10112, 10120);
    (10122, 10130); (68160, 68163); (69216, 69224); (69714, 69722);
    (127232, 127242) ].

(** The value of a decimal digit, [None] for any other character. *)
Definition decimal (cp : N) : option N :=
  match List.find (fun start => (start <=? cp) && (cp <? start + 10)) decimal_runs with
  | Some start => Some (cp - start)
  | None => None
  end.

Definition is_decimal (cp : N) : bool :=
  match decimal cp with Some _ => true | None => false end.

Definition is_digit (cp : N) : bool :=
  is_decimal cp
  || List.existsb (fun r => (fst r <=? cp) && (cp <=? snd r)) digit_ranges.

(** [s.isdigit()]: every character is a digit and there is at least one. *)
Definition isdigit (s : string) : bool :=
  match decode_utf8 s with
  | Some (cp :: cps) => List.forallb is_digit (cp :: cps)
  | _ => false
  end.

(** Horner evaluation of decimal digits; [None] at a character that is not
    one. *)
Fixpoint decimal_value (acc : N) (cps : list N) : option N :=
  match cps with
  | [] => Some acc
  | cp :: rest =>
      match decimal cp with
      | Some d => decimal_value (10 * acc + d) rest
      | None => None
      end
  end.

(** The number that [int(s)] returns for a string [s] of digits, [None]
    where it raises. *)
Definition int_value (s : string) : option Z :=
  match decode_utf8 s with
  | Some (cp :: cps) => option_map Z.of_N (decimal_value 0 (cp :: cps))
  | _ => None
  end.

End Unicode.

(** ** Exceptions and the error monad *)

Inductive exn : Type :=
| PricingError (msg : string)
| ValueError (msg : string).

(** [str(e)] *)
Definition message (e : exn) : string :=
  match e with
  | PricingError msg => msg
  | ValueError msg => msg
  end.

Definition M (A : Type) : Type := (exn + A)%type.

Definition ret {A} (a : A) : M A := inr a.
Definition raise {A} (e : exn) : M A := inl e.
Definition bind {A B} (m : M A) (k : A -> M B) : M B :=
  match m with
  | inl e => inl e
  | inr a => k a
  end.

Notation "'let*' x ':=' m 'in' k" := (bind m (fun x => k))
  (at level 10, x name, m at level 100, k at level 200).

(** [int(s)] for a string [s] with [s.isdigit()]: the number, or the
    [ValueError] of a digit that is not a decimal digit.  The message shows
    [repr(s)], which for a string of digits is the string between single
    quotes. *)
Definition py_int (s : string) : M Z :=
  match Unicode.int_value s with
  | Some n => ret n
  | None =>
      raise (ValueError ("invalid literal for int() with base 10: '" ++ s ++ "'"))
  end.

(** ** Data model *)

Inductive PriceType : Type := CUSTOMER | TIER | GROUP | NORMAL.

(** [PriceType.value] *)
Definition value (t : PriceType) : string :=
  match t with
  | CUSTOMER => "CUSTOMER"
  | TIER => "TIER"
  | GROUP => "GROUP"
  | NORMAL => "NORMAL"
  end.

(** [Optional[Union[int, str]]] *)
Inductive Key : Type :=
| KNone
| KInt (k : Z)
| KStr (s : string).

Record PriceEntry : Type := mkPriceEntry {
  product_id : string;
  min_qty : Z;
  price : Q;
  source : PriceType;
  key : Key
}.

(** [Union[int, str]], the type of a product identifier supplied by a caller. *)
Inductive ProductId : Type :=
| PInt (n : Z)
| PStr (s : string).

Record PricingEngine : Type := mkPricingEngine {
  prices : list PriceEntry;
  customer_tiers : gmap Z string;
  customer_groups : gmap Z string
}.

(** The dictionary returned by [get_best_price]. *)
Record Result : Type := mkResult {
  r_product_id : string;
  r_price : Q;
  r_price_type : string
}.

(** ** The engine *)

Definition PRIORITY (t : PriceType) : Z :=
  match t with
  | CUSTOMER => 1
  | TIER => 2
  | GROUP => 3
  | NORMAL => 4
  end.

Definition normalize_product_code (pid : ProductId) : M string :=
  match pid with
  | PInt n => ret ("P" ++ Str.format_03d n)
  | PStr s =>
      if Str.startswith (Str.upper s) "P" then ret (Str.upper s)
      else if Unicode.isdigit s then
        let* n := py_int s in
        ret ("P" ++ Str.format_03d n)
      else raise (PricingError ("Invalid product_id: " ++ s))
  end.

(** [p.key == customer_id], behind [isinstance(p.key, int)]. *)
Definition key_is_int_eq (k : Key) (customer_id : Z) : bool :=
  match k with
  | KInt n => n =? customer_id
  | _ => false
  end.

(** [p.key == tier], behind [isinstance(p.key, str)]; [tier] is the result of
    [dict.get], [None] when the customer is not a key of the dictionary. *)
Definition key_is_str_eq (k : Key) (label : option string) : bool :=
  match k, label with
  | KStr s, Some t => String.eqb s t
  | _, _ => false
  end.

Definition is_source (t u : PriceType) : bool :=
  match t, u with
  | CUSTOMER, CUSTOMER | TIER, TIER | GROUP, GROUP | NORMAL, NORMAL => true
  | _, _ => false
  end.

(** The condition of the list comprehension. *)
Definition matches (prod_code : string) (quantity customer_id : Z)
    (tier group : option string) (p : PriceEntry) : bool :=
  String.eqb (product_id p) prod_code
  && (quantity >=? min_qty p)
  && ((is_source (source p) CUSTOMER && key_is_int_eq (key p) customer_id)
      || (is_source (source p) TIER && key_is_str_eq (key p) tier)
      || (is_source (source p) GROUP && key_is_str_eq (key p) group)
      || is_source (source p) NORMAL).

(** The key of [min]: the pair (priority of the source, price). *)
Definition sort_key (p : PriceEntry) : Z * Q := (PRIORITY (source p), price p).

Definition Qltb (x y : Q) : bool :=
  match (x ?= y)%Q with Lt => true | _ => false end.

(** [a < b] on pairs, as Python compares tuples: the first components that
    differ decide. *)
Definition tuple_lt (a b : Z * Q) : bool :=
  if negb (fst a =? fst b) then fst a <? fst b
  else if negb (Qeq_bool (snd a) (snd b)) then Qltb (snd a) (snd b)
  else false.

(** The loop of [min(iterable, key=f)]: the running minimum is replaced only
    by an item whose key is strictly smaller. *)
Fixpoint min_loop {A K} (lt : K -> K -> bool) (f : A -> K) (best : A) (l : list A) : A :=
  match l with
  | [] => best
  | x :: l' => if lt (f x) (f best) then min_loop lt f x l' else min_loop lt f best l'
  end.

Definition applicable (e : PricingEngine) (prod_code : string)
    (quantity customer_id : Z) : list PriceEntry :=
  let tier := customer_tiers e !! customer_id in
  let group := customer_groups e !! customer_id in
  List.filter (matches prod_code quantity customer_id tier group) (prices e).

Definition result_of (best : PriceEntry) : Result :=
  {| r_product_id := product_id best;
     r_price := price best;
     r_price_type := value (source best) |}.

Definition get_best_price (e : PricingEngine) (pid : ProductId)
    (quantity customer_id : Z) : M Result :=
  let* _ := (if quantity <=? 0
             then raise (PricingError "Quantity must be greater than zero.")
             else ret tt) in
  let* prod_code := normalize_product_code pid in
  match applicable e prod_code quantity customer_id with
  | [] =>
      raise (PricingError ("No price found for " ++ prod_code ++ " with quantity "
                             ++ Str.str quantity ++ "."))
  | first :: rest =>
      ret (result_of (min_loop tuple_lt sort_key first rest))
  end.

(** * Vocabulary of the properties

    The definitions from here to the sample data are not part of the program:
    they name what the properties below talk about. *)

(** ** The order on sort keys *)

(** Lexicographic order on (priority, price): strictly below, and below or
    equal. *)
Definition key_lt (a b : Z * Q) : Prop :=
  fst a < fst b \/ (fst a = fst b /\ (snd a < snd b)%Q).

Definition key_le (a b : Z * Q) : Prop :=
  fst a < fst b \/ (fst a = fst b /\ (snd a <= snd b)%Q).

(** ** Precedence

    The table of the specification: the rank of a source, lower is better,
    and the tag under which a source is reported. *)

Definition rank (t : PriceType) : Z :=
  match t with
  | CUSTOMER => 1
  | TIER => 2
  | GROUP => 3
  | NORMAL => 4
  end.

Definition tag (t : PriceType) : string :=
  match t with
  | CUSTOMER => "CUSTOMER"
  | TIER => "TIER"
  | GROUP => "GROUP"
  | NORMAL => "NORMAL"
  end.

(** [p] is strictly better than [p']: a source of lower rank, or the same
    rank and a lower price. *)
Definition better (p p' : PriceEntry) : Prop :=
  rank (source p) < rank (source p')
  \/ (rank (source p) = rank (source p') /\ (price p < price p')%Q).

(** [p] is at least as good as [p']. *)
Definition as_good (p p' : PriceEntry) : Prop :=
  rank (source p) < rank (source p')
  \/ (rank (source p) = rank (source p') /\ (price p <= price p')%Q).

(** ** Applicability of a rule *)

(** The scope condition: what it means for a rule to target the customer. *)
Definition applies (e : PricingEngine) (customer_id : Z) (p : PriceEntry) : Prop :=
  match source p with
  | CUSTOMER => key p = KInt customer_id
  | TIER => exists t, key p = KStr t /\ customer_tiers e !! customer_id = Some t
  | GROUP => exists g, key p = KStr g /\ customer_groups e !! customer_id = Some g
  | NORMAL => True
  end.

(** A candidate: product code, minimum quantity and scope all hold. *)
Definition candidate (e : PricingEngine) (prod_code : string)
    (quantity customer_id : Z) (p : PriceEntry) : Prop :=
  product_id p = prod_code /\ quantity >= min_qty p /\ applies e customer_id p.

(** ** Failure kinds

    The module raises one exception class, [PricingError], from three places;
    the three kinds of failure are told apart by the message.  A fourth
    failure comes from the built-in [int], which raises [ValueError]. *)

Definition InvalidQuantity : exn :=
  PricingError "Quantity must be greater than zero.".

Definition InvalidProductIdentifier (raw : string) : exn :=
  PricingError ("Invalid product_id: " ++ raw).

Definition NoPriceFound (prod_code : string) (quantity : Z) : exn :=
  PricingError ("No price found for " ++ prod_code ++ " with quantity "
                  ++ Str.str quantity ++ ".").

(** The [ValueError] of [int] for a string that is not a number. *)
Definition InvalidLiteral (raw : string) : exn :=
  ValueError ("invalid literal for int() with base 10: '" ++ raw ++ "'").

(** A canonical product code: ["P"] followed by decimal digits. *)
Definition canonical (code : string) : bool :=
  match code with
  | String c ds => Ascii.eqb c "P" && Str.isdigit ds
  | EmptyString => false
  end.

(** [needle in hay] *)
Definition contains (hay needle : string) : Prop :=
  exists pre post, hay = pre ++ needle ++ post.

(** A customer the engine knows nothing about: no tier, no group, and no
    CUSTOMER rule keyed by the customer. *)
Definition unknown_customer (e : PricingEngine) (customer_id : Z) : Prop :=
  customer_tiers e !! customer_id = None
  /\ customer_groups e !! customer_id = None
  /\ (forall p, In p (prices e) -> source p = CUSTOMER -> key p <> KInt customer_id).

(** ** The sample data of the test module *)

Module Sample.

Definition prices : list PriceEntry :=
  [ mkPriceEntry "P001" 1 100 NORMAL KNone;
    mkPriceEntry "P002" 1 10 NORMAL KNone;
    mkPriceEntry "P001" 3 95 TIER (KStr "GOLD");
    mkPriceEntry "P003" 2 50 GROUP (KStr "GRP1");
    mkPriceEntry "P002" 1 5 CUSTOMER (KInt 6) ].

Definition customer_tiers : gmap Z string := {[ 2 := "GOLD"; 6 := "SILVER" ]}.
Definition customer_groups : gmap Z string := {[ 6 := "GRP1" ]}.

Definition engine : PricingEngine :=
  mkPricingEngine prices customer_tiers customer_groups.

End Sample.

(** ** Further rule sets *)

(** A CUSTOMER price that is higher than the NORMAL price of the product. *)
Module Precedence.

Definition normal_rule : PriceEntry := mkPriceEntry "P002" 1 10 NORMAL KNone.
Definition customer_rule : PriceEntry := mkPriceEntry "P002" 1 50 CUSTOMER (KInt 6).

Definition engine : PricingEngine :=
  mkPricingEngine [normal_rule; customer_rule] ∅ ∅.

End Precedence.

(** Three NORMAL prices of one product; two of them are equal, written as a
    fraction and as an integer. *)
Module Ties.

Definition dearer_rule : PriceEntry := mkPriceEntry "P001" 1 7 NORMAL KNone.
Definition first_rule : PriceEntry := mkPriceEntry "P001" 1 (10 # 2) NORMAL KNone.
Definition second_rule : PriceEntry := mkPriceEntry "P001" 1 5 NORMAL KNone.

Definition engine : PricingEngine :=
  mkPricingEngine [dearer_rule; first_rule; second_rule] ∅ ∅.

End Ties.

(** Rules whose key has the wrong type for their source, next to a TIER rule
    for customers of the tier GOLD; customer 2 has that tier, customer 7 has
    none. *)
Module Mistyped.

Definition customer_rule : PriceEntry := mkPriceEntry "P001" 1 5 CUSTOMER (KStr "7").
Definition group_rule : PriceEntry := mkPriceEntry "P001" 1 6 GROUP (KInt 7).
Definition tier_rule : PriceEntry := mkPriceEntry "P001" 1 8 TIER (KStr "GOLD").

Definition engine : PricingEngine :=
  mkPricingEngine [customer_rule; group_rule; tier_rule] {[ 2 := "GOLD" ]} ∅.

End Mistyped.

(** ** The driver

    [main] builds an engine and a list of rows, asks the engine for the price
    of each row and collects one dictionary per row: the result, or, when the
    engine raised [PricingError], the normalized product code with the
    message.  The loop is modelled as a function of the two local variables
    [engine] and [input_data]; [print] is modelled by the value returned. *)

(** A row of [input_data]. *)
Record Row : Type := mkRow {
  row_product_id : ProductId;
  row_quantity : Z;
  row_customer_id : Z
}.

(** An element of [outputs]: the dictionary of a result, or the dictionary
    with the keys ["product_id"] and ["error"]. *)
Inductive Output : Type :=
| OutResult (result : Result)
| OutError (code : string) (error : string).

(** The body of the [for] loop: [try] the call, and in the branch
    [except PricingError as e] normalize the product identifier again; an
    exception raised there is not caught, and neither is an exception of
    another class raised by the call. *)
Definition process_row (engine : PricingEngine) (row : Row) : M Output :=
  match get_best_price engine (row_product_id row) (row_quantity row)
          (row_customer_id row) with
  | inr result => ret (OutResult result)
  | inl (PricingError msg) =>
      let* code := normalize_product_code (row_product_id row) in
      ret (OutError code (message (PricingError msg)))
  | inl err => raise err
  end.

Fixpoint process_rows (engine : PricingEngine) (input_data : list Row)
    (outputs : list Output) : M (list Output) :=
  match input_data with
  | [] => ret outputs
  | row :: rest =>
      let* out := process_row engine row in
      process_rows engine rest (outputs ++ [out])%list
  end.

Module Main.

Definition prices : list PriceEntry :=
  [ mkPriceEntry "P002" 1 5 CUSTOMER (KInt 6);
    mkPriceEntry "P001" 3 95 TIER (KStr "GOLD");
    mkPriceEntry "P003" 2 50 GROUP (KStr "GRP1");
    mkPriceEntry "P001" 1 120 NORMAL KNone;
    mkPriceEntry "P002" 1 10 NORMAL KNone ].

Definition customer_tiers : gmap Z string := {[ 2 := "GOLD"; 6 := "SILVER" ]}.
Definition customer_groups : gmap Z string := {[ 6 := "GRP1" ]}.

Definition engine : PricingEngine :=
  mkPricingEngine prices customer_tiers customer_groups.

Definition input_data : list Row :=
  [ mkRow (PInt 1) 4 2;
    mkRow (PInt 2) 3 6;
    mkRow (PInt 3) 0 6;
    mkRow (PInt 5) 2 6 ].

(** The list that [main] prints. *)
Definition main : M (list Output) := process_rows engine input_data [].

End Main.

(** The product identifier of a row can be normalized. *)
Definition row_normalizes (row : Row) : Prop :=
  exists code, normalize_product_code (row_product_id row) = ret code.

(** What an element of [outputs] says about the row it was made from. *)
Definition output_of (engine : PricingEngine) (row : Row) (out : Output) : Prop :=
  match out with
  | OutResult r =>
      get_best_price engine (row_product_id row) (row_quantity row)
        (row_customer_id row) = ret r
  | OutError code msg =>
      normalize_product_code (row_product_id row) = ret code
      /\ get_best_price engine (row_product_id row) (row_quantity row)
           (row_customer_id row) = raise (PricingError msg)
      /\ ((row_quantity row <= 0 /\ PricingError msg = InvalidQuantity)
          \/ (0 < row_quantity row
              /\ PricingError msg = NoPriceFound code (row_quantity row)))
  end.

(** ** Facts about strings *)

Module StrFacts.
Import Str.

Lemma upper_char_P (c : ascii) :
  upper_char c = "P"%char <-> c = "P"%char \/ c = "p"%char.
Proof.
  destruct c as [[|] [|] [|] [|] [|] [|] [|] [|]]; vm_compute;
    split; intros H; try discriminate H; auto;
    destruct H as [H|H]; discriminate H.
Qed.

Lemma startswith_P_cons (c : ascii) (s : string) :
  startswith (String c s) "P" = Ascii.eqb c "P".
Proof.
  unfold startswith.
  change (String.prefix "P" (String c s))
    with (if ascii_dec "P" c then String.prefix "" s else false).
  destruct (ascii_dec "P" c) as [<-|E].
  - destruct s; reflexivity.
  - symmetry. apply Ascii.eqb_neq. congruence.
Qed.

Lemma startswith_upper_P (s : string) :
  startswith (upper s) "P" = starts_with_p s.
Proof.
  destruct s as [|c s]; [reflexivity|].
  cbn [upper starts_with_p]. rewrite startswith_P_cons.
  destruct (Ascii.eqb_spec (upper_char c) "P") as [E|E].
  - apply upper_char_P in E. destruct E as [-> | ->]; reflexivity.
  - symmetry. apply orb_false_intro; apply Ascii.eqb_neq; intros ->;
      apply E; reflexivity.
Qed.

Lemma digit_not_p (c : ascii) :
  is_digit_char c = true -> Ascii.eqb c "P" || Ascii.eqb c "p" = false.
Proof.
  destruct c as [[|] [|] [|] [|] [|] [|] [|] [|]]; vm_compute; congruence.
Qed.

Lemma isdigit_not_p (s : string) :
  isdigit s = true -> starts_with_p s = false.
Proof.
  destruct s as [|c s]; simpl; [discriminate|].
  intros H. apply andb_prop in H. apply digit_not_p, H.
Qed.

Lemma digit_value_le (c : ascii) :
  is_digit_char c = true -> (digit_value c <= 9)%N.
Proof.
  destruct c as [[|] [|] [|] [|] [|] [|] [|] [|]]; vm_compute; congruence.
Qed.

Lemma all_digits_app (s t : string) :
  all_digits (s ++ t) = all_digits s && all_digits t.
Proof.
  induction s as [|c s IH]; simpl; [reflexivity|].
  rewrite IH. apply andb_assoc.
Qed.

Lemma all_digits_zeros (n : nat) : all_digits (zeros n) = true.
Proof. induction n; simpl; auto. Qed.

Lemma length_zeros (n : nat) : String.length (zeros n) = n.
Proof. induction n; simpl; auto. Qed.

Lemma length_app (s t : string) :
  String.length (s ++ t) = (String.length s + String.length t)%nat.
Proof. induction s; simpl; auto. Qed.

Lemma append_assoc (s t u : string) : (s ++ t) ++ u = s ++ t ++ u.
Proof.
  induction s as [|c s IH]; [reflexivity|].
  change (String c ((s ++ t) ++ u) = String c (s ++ t ++ u)).
  f_equal. exact IH.
Qed.

Lemma append_empty_r (s : string) : s ++ "" = s.
Proof.
  induction s as [|c s IH]; [reflexivity|].
  change (String c (s ++ "") = String c s). f_equal. exact IH.
Qed.

Lemma int_digits_zeros (n : nat) (s : string) :
  int_digits 0 (zeros n ++ s) = int_digits 0 s.
Proof. induction n; simpl; auto. Qed.

(** *** The decimal digits of a number *)

Lemma all_digits_of_uint (d : Decimal.uint) :
  all_digits (NilEmpty.string_of_uint d) = true.
Proof. induction d; simpl; auto. Qed.

Lemma all_digits_str_N (n : N) : all_digits (str_N n) = true.
Proof. apply all_digits_of_uint. Qed.

Lemma int_digits_acc (d : Decimal.uint) (p : positive) :
  int_digits (Npos p) (NilEmpty.string_of_uint d) = Npos (Pos.of_uint_acc d p).
Proof.
  revert p. induction d; intros p; cbn [NilEmpty.string_of_uint int_digits Pos.of_uint_acc];
    try reflexivity; rewrite <- IHd; f_equal;
    match goal with |- context [digit_value ?c] =>
      let v := eval vm_compute in (digit_value c) in
      change (digit_value c) with v
    end; lia.
Qed.

Lemma int_digits_of_uint (d : Decimal.uint) :
  int_digits 0 (NilEmpty.string_of_uint d) = N.of_uint d.
Proof.
  unfold N.of_uint.
  induction d; simpl; try reflexivity; try apply int_digits_acc.
  exact IHd.
Qed.

(** Reading back the digits of [n] gives [n]. *)
Lemma int_digits_str_N (n : N) : int_digits 0 (str_N n) = n.
Proof.
  unfold str_N. rewrite int_digits_of_uint. apply DecimalN.Unsigned.of_to.
Qed.

Lemma str_N_nonempty (n : N) : str_N n <> "".
Proof.
  unfold str_N. destruct n as [|p]; simpl; [discriminate|].
  pose proof (DecimalPos.Unsigned.to_uint_nonnil p) as H.
  destruct (Pos.to_uint p); simpl; try discriminate. congruence.
Qed.

(** The digits of a positive number do not start with a zero. *)
Lemma to_uint_head (p : positive) (d : Decimal.uint) :
  Pos.to_uint p <> Decimal.D0 d.
Proof.
  intros E.
  destruct (Decimal.uint_eq_dec d Decimal.Nil) as [->|Hd].
  - exact (DecimalPos.Unsigned.to_uint_nonzero p E).
  - pose proof (DecimalPos.Unsigned.of_to p) as H1.
    rewrite E in H1. cbn [Pos.of_uint] in H1.
    pose proof (DecimalPos.Unsigned.to_of d) as H2.
    rewrite H1 in H2. cbn [N.to_uint] in H2. rewrite E in H2.
    pose proof (DecimalFacts.nb_digits_unorm d Hd) as H3.
    rewrite <- H2 in H3. cbn [Decimal.nb_digits] in H3. lia.
Qed.

Lemma str_N_head (p : positive) :
  exists c s, str_N (Npos p) = String c s /\ (1 <= digit_value c)%N.
Proof.
  unfold str_N. cbn [N.to_uint].
  pose proof (to_uint_head p) as H0.
  pose proof (DecimalPos.Unsigned.to_uint_nonnil p) as Hn.
  destruct (Pos.to_uint p) as [|d|d|d|d|d|d|d|d|d|d];
    [congruence | exfalso; exact (H0 d eq_refl) | ..];
    cbn [NilEmpty.string_of_uint]; eexists; eexists; (split; [reflexivity|]);
    vm_compute; discriminate.
Qed.

(** *** Size of a number and number of digits *)

Lemma int_digits_upper (s : string) :
  all_digits s = true ->
  forall acc : N,
    (int_digits acc s + 1 <= (acc + 1) * 10 ^ N.of_nat (String.length s))%N.
Proof.
  induction s as [|c s IH]; intros H acc.
  - cbn. lia.
  - cbn [all_digits] in H. apply andb_prop in H. destruct H as [Hc Hs].
    cbn [int_digits String.length].
    specialize (IH Hs (10 * acc + digit_value c)%N).
    pose proof (digit_value_le c Hc) as Hd.
    rewrite Nat2N.inj_succ, N.pow_succ_r'.
    set (k := (10 ^ N.of_nat (String.length s))%N) in *.
    nia.
Qed.

Lemma int_digits_lower (s : string) (acc : N) :
  (acc * 10 ^ N.of_nat (String.length s) <= int_digits acc s)%N.
Proof.
  revert acc. induction s as [|c s IH]; intros acc.
  - cbn. lia.
  - cbn [int_digits String.length].
    specialize (IH (10 * acc + digit_value c)%N).
    rewrite Nat2N.inj_succ, N.pow_succ_r'.
    set (k := (10 ^ N.of_nat (String.length s))%N) in *.
    nia.
Qed.

(** A number below [10 ^ k] has at most [k] digits. *)
Lemma length_str_N_le (n : N) (k : nat) :
  (n < 10 ^ N.of_nat k)%N -> (1 <= k)%nat -> (String.length (str_N n) <= k)%nat.
Proof.
  intros Hn Hk. destruct n as [|p]; [cbn; lia|].
  destruct (str_N_head p) as (c & s & E & Hc).
  pose proof (int_digits_str_N (Npos p)) as R. rewrite E in R |- *.
  cbn [int_digits String.length] in *.
  pose proof (int_digits_lower s (10 * 0 + digit_value c)%N) as L.
  destruct (le_lt_dec (S (String.length s)) k) as [|G]; [assumption|exfalso].
  assert (P : (10 ^ N.of_nat k <= 10 ^ N.of_nat (String.length s))%N)
    by (apply N.pow_le_mono_r; lia).
  set (a := (10 ^ N.of_nat (String.length s))%N) in *.
  nia.
Qed.

(** A number from [10 ^ k] on has more than [k] digits. *)
Lemma length_str_N_gt (n : N) (k : nat) :
  (10 ^ N.of_nat k <= n)%N -> (k < String.length (str_N n))%nat.
Proof.
  intros Hn.
  pose proof (int_digits_upper _ (all_digits_str_N n) 0%N) as U.
  rewrite int_digits_str_N in U.
  destruct (le_lt_dec (String.length (str_N n)) k) as [G|]; [exfalso|assumption].
  assert (P : (10 ^ N.of_nat (String.length (str_N n)) <= 10 ^ N.of_nat k)%N)
    by (apply N.pow_le_mono_r; lia).
  lia.
Qed.

End StrFacts.

(** ** Facts about Unicode digits *)

Module UnicodeFacts.

(** The ASCII digits are decimal digits with their usual values. *)
Lemma digit_char_decimal (c : ascii) :
  Str.is_digit_char c = true ->
  (N_of_ascii c <? 128)%N = true
  /\ Unicode.decimal (N_of_ascii c) = Some (Str.digit_value c)
  /\ Unicode.is_digit (N_of_ascii c) = true.
Proof.
  destruct c as [[|] [|] [|] [|] [|] [|] [|] [|]];
    intros H; try discriminate H; vm_compute; auto.
Qed.

Lemma all_digits_decode (s : string) :
  Str.all_digits s = true ->
  exists cps,
    Unicode.decode_utf8 s = Some cps
    /\ List.length cps = String.length s
    /\ List.forallb Unicode.is_digit cps = true
    /\ forall acc, Unicode.decimal_value acc cps = Some (Str.int_digits acc s).
Proof.
  induction s as [|c s IH]; intros H.
  - exists []. repeat split.
  - cbn [Str.all_digits] in H. apply andb_prop in H. destruct H as [Hc Hs].
    destruct (IH Hs) as (cps & D & L & F & V).
    destruct (digit_char_decimal c Hc) as (A & B & C).
    exists (N_of_ascii c :: cps). split; [|split; [|split]].
    + cbn [Unicode.decode_utf8]. cbv zeta. rewrite A, D. reflexivity.
    + cbn [List.length String.length]. rewrite L. reflexivity.
    + cbn [List.forallb]. rewrite C, F. reflexivity.
    + intros acc. cbn [Unicode.decimal_value Str.int_digits]. rewrite B. apply V.
Qed.

Lemma isdigit_ascii (s : string) :
  Str.isdigit s = true -> Unicode.isdigit s = true.
Proof.
  intros H. destruct s as [|c s]; [discriminate H|].
  cbn [Str.isdigit] in H.
  destruct (all_digits_decode (String c s) H) as (cps & D & L & F & _).
  unfold Unicode.isdigit. rewrite D.
  destruct cps as [|cp cps]; [discriminate L | exact F].
Qed.

Lemma int_value_ascii (s : string) :
  Str.isdigit s = true -> Unicode.int_value s = Some (Str.int s).
Proof.
  intros H. destruct s as [|c s]; [discriminate H|].
  cbn [Str.isdigit] in H.
  destruct (all_digits_decode (String c s) H) as (cps & D & L & _ & V).
  unfold Unicode.int_value, Str.int. rewrite D.
  destruct cps as [|cp cps]; [discriminate L|].
  rewrite V. reflexivity.
Qed.

End UnicodeFacts.

Lemma py_int_ascii (s : string) :
  Str.isdigit s = true -> py_int s = ret (Str.int s).
Proof.
  intros H. unfold py_int. rewrite (UnicodeFacts.int_value_ascii s H). reflexivity.
Qed.

(** ** Facts about the order on sort keys *)

Lemma Qltb_iff (x y : Q) : Qltb x y = true <-> (x < y)%Q.
Proof.
  unfold Qltb. rewrite Qlt_alt.
  destruct (x ?= y)%Q; split; congruence.
Qed.

Lemma tuple_lt_iff (a b : Z * Q) : tuple_lt a b = true <-> key_lt a b.
Proof.
  unfold tuple_lt, key_lt.
  destruct (Z.eqb_spec (fst a) (fst b)) as [E|E]; cbn [negb].
  - destruct (Qeq_bool (snd a) (snd b)) eqn:Q; cbn [negb].
    + apply Qeq_bool_iff in Q. split; [discriminate|].
      intros [H|[_ H]]; [lia|]. rewrite Q in H. exfalso. exact (Qlt_irrefl _ H).
    + rewrite Qltb_iff. split; [auto|]. intros [H|[_ H]]; [lia|exact H].
  - rewrite Z.ltb_lt. split; [auto|]. intros [H|[H _]]; [exact H|contradiction].
Qed.

Lemma tuple_lt_false_iff (a b : Z * Q) : tuple_lt a b = false <-> key_le b a.
Proof.
  rewrite <- Bool.not_true_iff_false, tuple_lt_iff.
  unfold key_lt, key_le. split.
  - intros H.
    destruct (Z_lt_le_dec (fst b) (fst a)) as [L|L]; [left; exact L|].
    right. assert (E : fst a = fst b).
    { destruct (Z.eq_dec (fst a) (fst b)); [assumption|]. exfalso. apply H. left. lia. }
    split; [symmetry; exact E|].
    apply Qnot_lt_le. intros C. apply H. right. auto.
  - intros [L|[E L]] [L'|[E' L']]; try lia.
    exact (Qlt_irrefl _ (Qle_lt_trans _ _ _ L L')).
Qed.

Lemma key_lt_le_trans (a b c : Z * Q) : key_lt a b -> key_le b c -> key_lt a c.
Proof.
  unfold key_lt, key_le. intros [H|[E H]] [H'|[E' H']]; try (left; lia).
  right. split; [congruence|]. exact (Qlt_le_trans _ _ _ H H').
Qed.

Lemma key_lt_le (a b : Z * Q) : key_lt a b -> key_le a b.
Proof.
  unfold key_lt, key_le. intros [H|[E H]]; [left; exact H|].
  right. split; [exact E|apply Qlt_le_weak, H].
Qed.

Lemma key_le_refl (a : Z * Q) : key_le a a.
Proof. right. split; [reflexivity|apply Qle_refl]. Qed.

Create HintDb pricing.
#[local] Hint Resolve key_le_refl key_lt_le : pricing.

(** ** The loop of [min] *)

(** [min_loop] returns the first item of [best :: l] whose key is minimal:
    every item before it has a strictly larger key, no item after it has a
    smaller one. *)
Lemma min_loop_split (l : list PriceEntry) (best : PriceEntry) :
  exists before after,
    best :: l = (before ++ min_loop tuple_lt sort_key best l :: after)%list
    /\ (forall x, In x before ->
          key_lt (sort_key (min_loop tuple_lt sort_key best l)) (sort_key x))
    /\ (forall x, In x after ->
          key_le (sort_key (min_loop tuple_lt sort_key best l)) (sort_key x)).
Proof.
  revert best. induction l as [|x l IH]; intros best.
  - exists [], []. cbn. split; [reflexivity|]. split; intros ? [].
  - cbn [min_loop]. destruct (tuple_lt (sort_key x) (sort_key best)) eqn:T.
    + apply tuple_lt_iff in T.
      destruct (IH x) as (before & after & E & B & A).
      set (m := min_loop tuple_lt sort_key x l) in *.
      exists (best :: before), after. split; [cbn; rewrite E; reflexivity|].
      split; [|exact A].
      assert (Hx : key_le (sort_key m) (sort_key x)).
      { destruct before as [|y before'].
        - cbn in E. injection E as E _. rewrite <- E. apply key_le_refl.
        - cbn in E. injection E as E _. apply key_lt_le, B. left. congruence. }
      intros y [<-|Hy]; [|apply B, Hy].
      destruct Hx as [Hx|[Hx1 Hx2]]; destruct T as [T|[T1 T2]];
        try (left; lia).
      right. split; [congruence|]. exact (Qle_lt_trans _ _ _ Hx2 T2).
    + apply tuple_lt_false_iff in T.
      destruct (IH best) as (before & after & E & B & A).
      set (m := min_loop tuple_lt sort_key best l) in *.
      destruct before as [|y before'].
      * cbn in E. injection E as E1 E2.
        exists [], (x :: after). split; [cbn; congruence|].
        split; [intros ? []|].
        intros z [<-|Hz]; [rewrite <- E1; exact T|apply A, Hz].
      * cbn in E. injection E as E1 E2. subst y.
        exists (best :: x :: before'), after.
        split; [cbn; rewrite E2; reflexivity|]. split; [|exact A].
        intros z [<-|[<-|Hz]].
        -- apply B. left. reflexivity.
        -- apply key_lt_le_trans with (sort_key best); [|exact T].
           apply B. left. reflexivity.
        -- apply B. right. exact Hz.
Qed.

(** A filtered list split around one of its items splits the original list
    around the same item. *)
Lemma filter_split {A} (f : A -> bool) (l : list A) (before after : list A) (m : A) :
  List.filter f l = (before ++ m :: after)%list ->
  exists before' after',
    l = (before' ++ m :: after')%list
    /\ List.filter f before' = before
    /\ List.filter f after' = after.
Proof.
  revert before. induction l as [|x l IH]; intros before E.
  - destruct before; discriminate E.
  - cbn [List.filter] in E. destruct (f x) eqn:F.
    + destruct before as [|y before'].
      * cbn in E. injection E as <- E.
        exists [], l. cbn. auto.
      * cbn in E. injection E as <- E.
        destruct (IH _ E) as (b' & a' & -> & Hb & Ha).
        exists (x :: b'), a'. cbn. rewrite F, Hb. auto.
    + destruct (IH _ E) as (b' & a' & -> & Hb & Ha).
      exists (x :: b'), a'. cbn. rewrite F. auto.
Qed.

(** ** Facts about failures and applicability *)

Lemma kinds_distinct (raw prod_code : string) (quantity : Z) :
  InvalidQuantity <> InvalidProductIdentifier raw
  /\ InvalidQuantity <> NoPriceFound prod_code quantity
  /\ InvalidProductIdentifier raw <> NoPriceFound prod_code quantity.
Proof. repeat split; intros H; discriminate H. Qed.

Lemma key_is_int_eq_iff (k : Key) (customer_id : Z) :
  key_is_int_eq k customer_id = true <-> k = KInt customer_id.
Proof.
  destruct k as [|n|s]; cbn; try (split; discriminate).
  rewrite Z.eqb_eq. split; congruence.
Qed.

Lemma key_is_str_eq_iff (k : Key) (label : option string) :
  key_is_str_eq k label = true <-> exists t, k = KStr t /\ label = Some t.
Proof.
  destruct k as [|n|s]; cbn;
    try (split; [discriminate | intros (t & H & _); discriminate H]).
  destruct label as [t|].
  - rewrite String.eqb_eq. split.
    + intros ->. eauto.
    + intros (t' & H1 & H2). congruence.
  - split; [discriminate | intros (t & _ & H); discriminate H].
Qed.

Lemma matches_iff (e : PricingEngine) (prod_code : string)
    (quantity customer_id : Z) (p : PriceEntry) :
  matches prod_code quantity customer_id
    (customer_tiers e !! customer_id) (customer_groups e !! customer_id) p = true
  <-> candidate e prod_code quantity customer_id p.
Proof.
  unfold matches, candidate, applies.
  rewrite !andb_true_iff, !orb_true_iff, !andb_true_iff, String.eqb_eq, Z.geb_le.
  rewrite key_is_int_eq_iff, !key_is_str_eq_iff.
  destruct (source p); cbn [is_source];
    intuition (try discriminate; try lia; auto).
Qed.

Lemma In_applicable (e : PricingEngine) (prod_code : string)
    (quantity customer_id : Z) (p : PriceEntry) :
  In p (applicable e prod_code quantity customer_id)
  <-> In p (prices e) /\ candidate e prod_code quantity customer_id p.
Proof.
  unfold applicable. rewrite filter_In, matches_iff. reflexivity.
Qed.

(** ** The steps of [get_best_price] *)

Lemma get_best_price_nonpositive (e : PricingEngine) (pid : ProductId)
    (quantity customer_id : Z) :
  quantity <= 0 ->
  get_best_price e pid quantity customer_id = raise InvalidQuantity.
Proof.
  intros H. unfold get_best_price.
  destruct (Z.leb_spec quantity 0); [reflexivity | lia].
Qed.

Lemma get_best_price_positive (e : PricingEngine) (pid : ProductId)
    (quantity customer_id : Z) :
  0 < quantity ->
  get_best_price e pid quantity customer_id =
    let* prod_code := normalize_product_code pid in
    match applicable e prod_code quantity customer_id with
    | [] => raise (NoPriceFound prod_code quantity)
    | first :: rest => ret (result_of (min_loop tuple_lt sort_key first rest))
    end.
Proof.
  intros H. unfold get_best_price.
  destruct (Z.leb_spec quantity 0); [lia | reflexivity].
Qed.

Lemma get_best_price_invalid (e : PricingEngine) (pid : ProductId)
    (quantity customer_id : Z) (err : exn) :
  0 < quantity ->
  normalize_product_code pid = raise err ->
  get_best_price e pid quantity customer_id = raise err.
Proof.
  intros H N. rewrite get_best_price_positive by exact H. rewrite N. reflexivity.
Qed.

(** A call whose quantity is positive and whose product identifier
    normalizes to [prod_code]. *)
Section AcceptedCall.

Variable e : PricingEngine.
Variable pid : ProductId.
Variables quantity customer_id : Z.
Variable prod_code : string.
Hypothesis quantity_positive : 0 < quantity.
Hypothesis normalized : normalize_product_code pid = ret prod_code.

Lemma get_best_price_accepted :
  get_best_price e pid quantity customer_id =
    match applicable e prod_code quantity customer_id with
    | [] => raise (NoPriceFound prod_code quantity)
    | first :: rest => ret (result_of (min_loop tuple_lt sort_key first rest))
    end.
Proof.
  rewrite get_best_price_positive by exact quantity_positive.
  rewrite normalized. reflexivity.
Qed.

Lemma get_best_price_none :
  (forall p, In p (prices e) -> ~ candidate e prod_code quantity customer_id p) ->
  get_best_price e pid quantity customer_id = raise (NoPriceFound prod_code quantity).
Proof.
  intros Hno. rewrite get_best_price_accepted.
  destruct (applicable e prod_code quantity customer_id) as [|x l] eqn:A; [reflexivity|].
  exfalso. assert (I : In x (applicable e prod_code quantity customer_id))
    by (rewrite A; left; reflexivity).
  apply In_applicable in I. destruct I as [I C]. exact (Hno x I C).
Qed.

(** When some rule is a candidate, the call returns the entry that [min]
    picks: the first candidate, in the order of [prices], with a minimal
    key. *)
Lemma get_best_price_some (p0 : PriceEntry) :
  In p0 (prices e) ->
  candidate e prod_code quantity customer_id p0 ->
  exists before best after,
    prices e = (before ++ best :: after)%list
    /\ get_best_price e pid quantity customer_id = ret (result_of best)
    /\ candidate e prod_code quantity customer_id best
    /\ (forall p, In p before -> candidate e prod_code quantity customer_id p ->
          key_lt (sort_key best) (sort_key p))
    /\ (forall p, In p after -> candidate e prod_code quantity customer_id p ->
          key_le (sort_key best) (sort_key p)).
Proof.
  intros I0 C0. rewrite get_best_price_accepted.
  assert (I : In p0 (applicable e prod_code quantity customer_id))
    by (apply In_applicable; auto).
  destruct (applicable e prod_code quantity customer_id) as [|x l] eqn:A; [destruct I|].
  destruct (min_loop_split l x) as (b & a & E & Hb & Ha).
  set (best := min_loop tuple_lt sort_key x l) in *.
  rewrite <- A in E. unfold applicable in E.
  destruct (filter_split _ _ _ _ _ E) as (b' & a' & P & Fb & Fa).
  exists b', best, a'. split; [exact P|]. split; [reflexivity|].
  assert (Cb : candidate e prod_code quantity customer_id best).
  { assert (J : In best (applicable e prod_code quantity customer_id)).
    { unfold applicable. rewrite E. apply in_or_app. right. left. reflexivity. }
    apply In_applicable in J. apply J. }
  split; [exact Cb|]. split.
  - intros p Ip Cp. apply Hb. rewrite <- Fb. apply filter_In. split; [exact Ip|].
    apply matches_iff, Cp.
  - intros p Ip Cp. apply Ha. rewrite <- Fa. apply filter_In. split; [exact Ip|].
    apply matches_iff, Cp.
Qed.

(** The same, without positions: the returned entry is a candidate with a
    key below or equal to the key of every candidate. *)
Lemma get_best_price_minimal (p0 : PriceEntry) :
  In p0 (prices e) ->
  candidate e prod_code quantity customer_id p0 ->
  exists best,
    In best (prices e)
    /\ candidate e prod_code quantity customer_id best
    /\ get_best_price e pid quantity customer_id = ret (result_of best)
    /\ (forall p, In p (prices e) -> candidate e prod_code quantity customer_id p ->
          key_le (sort_key best) (sort_key p)).
Proof.
  intros I0 C0.
  destruct (get_best_price_some p0 I0 C0) as (b & best & a & P & G & Cb & Hb & Ha).
  exists best. split; [rewrite P; apply in_or_app; right; left; reflexivity|].
  split; [exact Cb|]. split; [exact G|].
  intros p Ip Cp. rewrite P in Ip. apply in_app_or in Ip.
  destruct Ip as [Ip|[<-|Ip]]; auto with pricing.
Qed.

End AcceptedCall.

Lemma normalize_raises (pid : ProductId) (err : exn) :
  normalize_product_code pid = raise err ->
  exists s,
    pid = PStr s
    /\ ((Unicode.isdigit s = false /\ err = InvalidProductIdentifier s)
        \/ (Unicode.isdigit s = true /\ err = InvalidLiteral s)).
Proof.
  destruct pid as [n|s]; cbn [normalize_product_code]; [discriminate|].
  destruct (Str.startswith (Str.upper s) "P"); [discriminate|].
  destruct (Unicode.isdigit s) eqn:D.
  - unfold py_int. destruct (Unicode.int_value s); [discriminate|].
    intros H. injection H as <-. exists s. auto.
  - intros H. injection H as <-. exists s. auto.
Qed.

(** The order of the program on sort keys is the order of the table of
    precedence, and the tags are those of the enumeration. *)
Lemma key_lt_better (p p' : PriceEntry) :
  key_lt (sort_key p) (sort_key p') <-> better p p'.
Proof.
  unfold key_lt, better, sort_key. cbn [fst snd].
  destruct (source p), (source p'); cbn [PRIORITY rank]; reflexivity.
Qed.

Lemma key_le_as_good (p p' : PriceEntry) :
  key_le (sort_key p) (sort_key p') <-> as_good p p'.
Proof.
  unfold key_le, as_good, sort_key. cbn [fst snd].
  destruct (source p), (source p'); cbn [PRIORITY rank]; reflexivity.
Qed.

Lemma value_tag (t : PriceType) : value t = tag t.
Proof. destruct t; reflexivity. Qed.

Lemma rank_inj (t u : PriceType) : rank t = rank u -> t = u.
Proof. destruct t, u; cbn; intros H; try reflexivity; discriminate H. Qed.

Lemma result_of_candidate (e : PricingEngine) (prod_code : string)
    (quantity customer_id : Z) (p : PriceEntry) :
  candidate e prod_code quantity customer_id p ->
  result_of p = {| r_product_id := prod_code;
                   r_price := price p;
                   r_price_type := tag (source p) |}.
Proof.
  intros (E & _). unfold result_of. rewrite E, value_tag. reflexivity.
Qed.

Lemma candidate_product_id (e : PricingEngine) (prod_code : string)
    (quantity customer_id : Z) (p : PriceEntry) :
  candidate e prod_code quantity customer_id p -> product_id p = prod_code.
Proof. intros H. apply H. Qed.

(** * The properties of the specification *)

(** ** Precedence and tie-break *)

(** C1. Whenever some rule is applicable, [get_best_price] returns the code,
    the price and the tag of an applicable rule that is at least as good as
    every applicable rule in the order of the table of precedence (CUSTOMER
    1, TIER 2, GROUP 3, NORMAL 4, lower first) and then of the price.  So
    when a CUSTOMER rule [c] and a NORMAL rule [n] are both applicable,
    whatever their prices, the result has the tag ["CUSTOMER"] and the price
    of an applicable CUSTOMER rule, at most the price of [c], and the price
    of [c] itself when [c] is the only applicable CUSTOMER rule. *)
Theorem customer_rule_beats_normal (e : PricingEngine) (pid : ProductId)
    (quantity customer_id : Z) (prod_code : string) (p0 : PriceEntry) :
  0 < quantity ->
  normalize_product_code pid = ret prod_code ->
  In p0 (prices e) -> candidate e prod_code quantity customer_id p0 ->
  exists best,
    In best (prices e)
    /\ candidate e prod_code quantity customer_id best
    /\ get_best_price e pid quantity customer_id
       = ret {| r_product_id := prod_code;
                r_price := price best;
                r_price_type := tag (source best) |}
    /\ (forall p, In p (prices e) -> candidate e prod_code quantity customer_id p ->
          rank (source best) < rank (source p)
          \/ (rank (source best) = rank (source p)
              /\ (price best <= price p)%Q))
    /\ (forall c n,
          In c (prices e) -> candidate e prod_code quantity customer_id c ->
          source c = CUSTOMER ->
          In n (prices e) -> candidate e prod_code quantity customer_id n ->
          source n = NORMAL ->
          source best = CUSTOMER
          /\ get_best_price e pid quantity customer_id
             = ret {| r_product_id := prod_code;
                      r_price := price best;
                      r_price_type := "CUSTOMER" |}
          /\ (price best <= price c)%Q
          /\ ((forall p, In p (prices e) ->
                 candidate e prod_code quantity customer_id p ->
                 source p = CUSTOMER -> p = c) -> best = c))
    /\ PRIORITY CUSTOMER = 1 /\ PRIORITY TIER = 2
    /\ PRIORITY GROUP = 3 /\ PRIORITY NORMAL = 4.
Proof.
  intros H N I0 C0.
  destruct (get_best_price_minimal e pid quantity customer_id prod_code H N p0 I0 C0)
    as (best & Ib & Cb & G & Hmin).
  assert (G' : get_best_price e pid quantity customer_id
               = ret {| r_product_id := prod_code;
                        r_price := price best;
                        r_price_type := tag (source best) |}).
  { rewrite G, (result_of_candidate _ _ _ _ _ Cb). reflexivity. }
  exists best. split; [exact Ib|]. split; [exact Cb|]. split; [exact G'|].
  split; [|split; [|repeat split]].
  - intros p Ip Cp. apply (proj1 (key_le_as_good best p)), Hmin; assumption.
  - intros c n Ic Cc Sc _ _ _.
    pose proof (proj1 (key_le_as_good best c) (Hmin c Ic Cc)) as L.
    unfold as_good in L. rewrite Sc in L. cbn [rank] in L.
    assert (Sb : source best = CUSTOMER).
    { destruct (source best); cbn [rank] in L; try reflexivity;
        destruct L as [L|[L _]]; lia. }
    split; [exact Sb|]. split; [rewrite G', Sb; reflexivity|]. split.
    + rewrite Sb in L. destruct L as [L|[_ L]]; [cbn in L; lia | exact L].
    + intros U. apply U; assumption.
Qed.

(** C2. Whenever some rule is applicable, [get_best_price] returns the code,
    the price and the tag of an applicable rule, and no applicable rule of
    the same source has a strictly lower price. *)
Theorem lowest_price_within_source (e : PricingEngine) (pid : ProductId)
    (quantity customer_id : Z) (prod_code : string) (p0 : PriceEntry) :
  0 < quantity ->
  normalize_product_code pid = ret prod_code ->
  In p0 (prices e) -> candidate e prod_code quantity customer_id p0 ->
  exists best,
    In best (prices e)
    /\ candidate e prod_code quantity customer_id best
    /\ get_best_price e pid quantity customer_id
       = ret {| r_product_id := prod_code;
                r_price := price best;
                r_price_type := tag (source best) |}
    /\ (forall p, In p (prices e) -> candidate e prod_code quantity customer_id p ->
          source p = source best -> ~ (price p < price best)%Q).
Proof.
  intros H N I0 C0.
  destruct (get_best_price_minimal e pid quantity customer_id prod_code H N p0 I0 C0)
    as (best & Ib & Cb & G & Hmin).
  exists best. split; [exact Ib|]. split; [exact Cb|]. split.
  { rewrite G, (result_of_candidate _ _ _ _ _ Cb). reflexivity. }
  intros p Ip Cp Sp Lt.
  pose proof (proj1 (key_le_as_good best p) (Hmin p Ip Cp)) as L.
  unfold as_good in L. rewrite Sp in L. destruct L as [L|[_ L]]; [lia|].
  exact (Qlt_irrefl _ (Qle_lt_trans _ _ _ L Lt)).
Qed.

(** C9. Among the applicable rules that share the least pair (rank of the
    source, price), [get_best_price] returns the one that comes first in
    [prices]: the list splits around an applicable rule whose code, price and
    tag are returned, which is at least as good as every applicable rule, and
    no applicable rule before it has the same rank and an equal price. *)
Theorem earliest_minimal_rule_wins (e : PricingEngine) (pid : ProductId)
    (quantity customer_id : Z) (prod_code : string) (p0 : PriceEntry) :
  0 < quantity ->
  normalize_product_code pid = ret prod_code ->
  In p0 (prices e) -> candidate e prod_code quantity customer_id p0 ->
  exists before best after,
    prices e = (before ++ best :: after)%list
    /\ candidate e prod_code quantity customer_id best
    /\ get_best_price e pid quantity customer_id
       = ret {| r_product_id := prod_code;
                r_price := price best;
                r_price_type := tag (source best) |}
    /\ (forall p, In p (prices e) -> candidate e prod_code quantity customer_id p ->
          rank (source best) < rank (source p)
          \/ (rank (source best) = rank (source p)
              /\ (price best <= price p)%Q))
    /\ (forall p, In p before -> candidate e prod_code quantity customer_id p ->
          ~ (rank (source p) = rank (source best)
             /\ (price p == price best)%Q)).
Proof.
  intros H N I0 C0.
  destruct (get_best_price_some e pid quantity customer_id prod_code H N p0 I0 C0)
    as (b & best & a & P & G & Cb & Hb & Ha).
  exists b, best, a. split; [exact P|]. split; [exact Cb|]. split.
  { rewrite G, (result_of_candidate _ _ _ _ _ Cb). reflexivity. }
  split.
  - intros p Ip Cp. apply (proj1 (key_le_as_good best p)).
    rewrite P in Ip. apply in_app_or in Ip.
    destruct Ip as [Ip|[<-|Ip]]; auto with pricing.
  - intros p Ip Cp [E1 E2].
    pose proof (proj1 (key_lt_better best p) (Hb p Ip Cp)) as L.
    unfold better in L. destruct L as [L|[_ L]]; [lia|].
    rewrite E2 in L. exact (Qlt_irrefl _ L).
Qed.

(** ** The candidate set *)

(** C3. A rule is in the list [applicable] exactly when it is a rule of the
    engine whose product code is the normalized code, whose minimum quantity
    is at most the quantity, and which targets the customer: a CUSTOMER rule
    by an integer key equal to the customer, a TIER or GROUP rule by a string
    key equal to the customer's tier or group, a NORMAL rule always.  Hence a
    CUSTOMER rule whose key is not an integer, a TIER or GROUP rule whose key
    is not a string, and any TIER rule for a customer without a tier are not
    in the list. *)
Theorem candidate_set_iff (e : PricingEngine) (prod_code : string)
    (quantity customer_id : Z) (p : PriceEntry) :
  (In p (applicable e prod_code quantity customer_id)
   <-> In p (prices e)
       /\ product_id p = prod_code
       /\ quantity >= min_qty p
       /\ match source p with
          | CUSTOMER => key p = KInt customer_id
          | TIER =>
              exists t, key p = KStr t /\ customer_tiers e !! customer_id = Some t
          | GROUP =>
              exists g, key p = KStr g /\ customer_groups e !! customer_id = Some g
          | NORMAL => True
          end)
  /\ (source p = CUSTOMER -> (forall k, key p <> KInt k) ->
      ~ In p (applicable e prod_code quantity customer_id))
  /\ (source p = TIER \/ source p = GROUP -> (forall s, key p <> KStr s) ->
      ~ In p (applicable e prod_code quantity customer_id))
  /\ (source p = TIER -> customer_tiers e !! customer_id = None ->
      ~ In p (applicable e prod_code quantity customer_id)).
Proof.
  split; [apply In_applicable|].
  repeat split; intros S K I; apply In_applicable in I;
    destruct I as (_ & _ & _ & A); unfold applies in A.
  - rewrite S in A. exact (K _ A).
  - destruct S as [S|S]; rewrite S in A; destruct A as (t & A & _); exact (K _ A).
  - rewrite S in A. destruct A as (t & _ & A). congruence.
Qed.

(** ** Failures *)

(** C4. [get_best_price] fails with [InvalidQuantity] exactly when the
    quantity is zero or negative, whatever the product identifier and the
    customer, also for a product identifier that cannot be normalized: the
    quantity is checked first.  The message says that the quantity must be
    greater than zero. *)
Theorem invalid_quantity_iff (e : PricingEngine) (pid : ProductId)
    (quantity customer_id : Z) :
  (get_best_price e pid quantity customer_id = raise InvalidQuantity
   <-> quantity <= 0)
  /\ contains (message InvalidQuantity) "greater than zero".
Proof.
  split.
  - split; [|apply get_best_price_nonpositive].
    intros G. destruct (Z_le_gt_dec quantity 0) as [|P]; [assumption|exfalso].
    rewrite get_best_price_positive in G by lia.
    destruct (normalize_product_code pid) as [err|code] eqn:N.
    + apply normalize_raises in N.
      destruct N as (s & _ & [[_ ->]|[_ ->]]); discriminate G.
    + cbn [bind] in G.
      destruct (applicable e code quantity customer_id); discriminate G.
  - exists "Quantity must be ", ".". reflexivity.
Qed.

(** C5. For a positive quantity and a product identifier that normalizes to
    [prod_code], [get_best_price] fails with [NoPriceFound] exactly when no
    rule of the engine has at once the product code, a minimum quantity
    within the quantity and a scope that targets the customer; it then fails
    in no other way, and the message holds the normalized code and the
    quantity. *)
Theorem no_price_found_iff (e : PricingEngine) (pid : ProductId)
    (quantity customer_id : Z) (prod_code : string) :
  0 < quantity ->
  normalize_product_code pid = ret prod_code ->
  (get_best_price e pid quantity customer_id = raise (NoPriceFound prod_code quantity)
   <-> forall p, In p (prices e) ->
         ~ (product_id p = prod_code /\ quantity >= min_qty p
            /\ applies e customer_id p))
  /\ (forall err, get_best_price e pid quantity customer_id = raise err ->
        err = NoPriceFound prod_code quantity)
  /\ contains (message (NoPriceFound prod_code quantity)) prod_code
  /\ contains (message (NoPriceFound prod_code quantity)) (Str.str quantity).
Proof.
  intros H N. split; [|split; [|split]].
  - split.
    + intros G p Ip Cp.
      destruct (get_best_price_minimal e pid quantity customer_id prod_code H N p Ip Cp)
        as (best & _ & _ & G' & _).
      rewrite G in G'. discriminate G'.
    + apply get_best_price_none; assumption.
  - intros err G. rewrite (get_best_price_accepted _ _ _ _ _ H N) in G.
    destruct (applicable e prod_code quantity customer_id); [|discriminate G].
    injection G as <-. reflexivity.
  - exists "No price found for ", (" with quantity " ++ Str.str quantity ++ ".").
    reflexivity.
  - exists ("No price found for " ++ prod_code ++ " with quantity "), ".".
    cbn [message NoPriceFound].
    rewrite !StrFacts.append_assoc. reflexivity.
Qed.

(** ** Normalization of product identifiers *)

Lemma format_03d_nonneg (n : Z) :
  0 <= n ->
  Str.format_03d n
  = Str.zeros (3 - String.length (Str.str n)) ++ Str.str n.
Proof.
  intros H. unfold Str.format_03d, Str.str.
  destruct (Z.ltb_spec n 0); [lia|]. reflexivity.
Qed.

Lemma format_03d_neg (n : Z) :
  n < 0 ->
  Str.format_03d n
  = String "-" (Str.zeros (2 - String.length (Str.str_N (Z.abs_N n)))
                  ++ Str.str_N (Z.abs_N n)).
Proof.
  intros H. unfold Str.format_03d.
  destruct (Z.ltb_spec n 0); [|lia]. reflexivity.
Qed.

Lemma normalize_digit_string (s : string) :
  Str.isdigit s = true ->
  normalize_product_code (PStr s) = ret ("P" ++ Str.format_03d (Str.int s)).
Proof.
  intros H. unfold normalize_product_code.
  rewrite StrFacts.startswith_upper_P, (StrFacts.isdigit_not_p s H).
  rewrite (UnicodeFacts.isdigit_ascii s H), (py_int_ascii s H). reflexivity.
Qed.

(** C6. For an integer [n >= 0], [normalize_product_code] returns ["P"]
    followed by the decimal digits of [n] with zeros in front up to three
    digits: only digits, at least three, exactly three below 1000, the digits
    of [n] unchanged from 1000 on, and read back as a number they give [n]
    (1 gives ["P001"], 1000 gives ["P1000"]).  For a string [s] of digits it
    returns what it returns for the integer [int(s)]. *)
Theorem normalize_digits (n : Z) (s : string) :
  0 <= n ->
  Str.isdigit s = true ->
  let digits := Str.str n in
  let padded := Str.zeros (3 - String.length digits) ++ digits in
  normalize_product_code (PInt n) = ret ("P" ++ padded)
  /\ Str.all_digits padded = true
  /\ String.length padded = Nat.max 3 (String.length digits)
  /\ Str.int padded = n
  /\ (n < 1000 -> String.length padded = 3%nat)
  /\ (1000 <= n -> padded = digits /\ (3 < String.length padded)%nat)
  /\ normalize_product_code (PInt 1) = ret "P001"
  /\ normalize_product_code (PInt 1000) = ret "P1000"
  /\ normalize_product_code (PStr s) = normalize_product_code (PInt (Str.int s)).
Proof.
  intros Hn Hs digits padded.
  assert (D : digits = Str.str_N (Z.abs_N n)).
  { unfold digits, Str.str. destruct (Z.ltb_spec n 0); [lia|reflexivity]. }
  assert (L : String.length padded = Nat.max 3 (String.length digits)).
  { unfold padded. rewrite StrFacts.length_app, StrFacts.length_zeros. lia. }
  split; [|split; [|split; [|split; [|split; [|split; [|split; [|split]]]]]]].
  - unfold normalize_product_code. rewrite format_03d_nonneg by exact Hn. reflexivity.
  - unfold padded. rewrite StrFacts.all_digits_app, StrFacts.all_digits_zeros, D.
    apply StrFacts.all_digits_str_N.
  - exact L.
  - unfold padded, Str.int. rewrite StrFacts.int_digits_zeros, D.
    rewrite StrFacts.int_digits_str_N. rewrite N2Z.inj_abs_N. apply Z.abs_eq, Hn.
  - intros B. rewrite L.
    assert (String.length digits <= 3)%nat; [|lia].
    rewrite D. apply StrFacts.length_str_N_le; [|lia].
    change (10 ^ N.of_nat 3)%N with 1000%N. lia.
  - intros B.
    assert (G : (3 < String.length digits)%nat).
    { rewrite D. apply StrFacts.length_str_N_gt.
      change (10 ^ N.of_nat 3)%N with 1000%N. lia. }
    split; [|lia]. unfold padded.
    replace (3 - String.length digits)%nat with 0%nat by lia. reflexivity.
  - reflexivity.
  - reflexivity.
  - rewrite (normalize_digit_string s Hs). reflexivity.
Qed.

(** C7. For a string whose first character is [P] or [p],
    [normalize_product_code] returns the string in upper case and nothing
    else changes: the result has the length of the input, it is ["P"]
    followed by the rest of the input in upper case, and no zero is added
    (["p1"] gives ["P1"], not ["P001"]). *)
Theorem normalize_p_prefixed (s : string) :
  Str.starts_with_p s = true ->
  normalize_product_code (PStr s) = ret (Str.upper s)
  /\ String.length (Str.upper s) = String.length s
  /\ (exists c rest, s = String c rest /\ Str.upper s = String "P" (Str.upper rest))
  /\ normalize_product_code (PStr "p1") = ret "P1"
  /\ normalize_product_code (PStr "p1") <> ret "P001".
Proof.
  intros H. split; [|split; [|split; [|split]]].
  - unfold normalize_product_code. rewrite StrFacts.startswith_upper_P, H. reflexivity.
  - clear H. induction s as [|c s IH]; cbn [Str.upper String.length]; congruence.
  - destruct s as [|c rest]; [discriminate H|].
    exists c, rest. split; [reflexivity|]. cbn [Str.upper]. f_equal.
    apply StrFacts.upper_char_P. cbn [Str.starts_with_p] in H.
    apply orb_prop in H. destruct H as [H|H]; apply Ascii.eqb_eq in H; auto.
  - reflexivity.
  - discriminate.
Qed.

(** A string that does not start with [P] or [p] and for which
    [s.isdigit()] is false is rejected with the message that holds it. *)
Lemma normalize_rejects (s : string) :
  Str.starts_with_p s = false ->
  Unicode.isdigit s = false ->
  normalize_product_code (PStr s) = raise (InvalidProductIdentifier s).
Proof.
  intros Hp Hd. unfold normalize_product_code.
  rewrite StrFacts.startswith_upper_P, Hp, Hd. reflexivity.
Qed.

(** C8. The code does not keep this property.  The string made of the one
    character superscript two neither starts with [P] or [p] nor is made of
    the digits 0 to 9, yet [s.isdigit()] holds for it, so the code calls
    [int], which raises [ValueError]: [normalize_product_code] fails with
    that exception and not with [InvalidProductIdentifier], and
    [get_best_price] passes it on. *)
Theorem superscript_digit_raises_value_error (e : PricingEngine) (customer_id : Z) :
  Str.starts_with_p "²" = false
  /\ Str.isdigit "²" = false
  /\ Unicode.isdigit "²" = true
  /\ normalize_product_code (PStr "²")
     = raise (ValueError "invalid literal for int() with base 10: '²'")
  /\ (forall raw,
        normalize_product_code (PStr "²") <> raise (InvalidProductIdentifier raw))
  /\ get_best_price e (PStr "²") 1 customer_id
     = raise (ValueError "invalid literal for int() with base 10: '²'").
Proof.
  assert (N : normalize_product_code (PStr "²")
              = raise (ValueError "invalid literal for int() with base 10: '²'"))
    by (vm_compute; reflexivity).
  split; [reflexivity|]. split; [reflexivity|].
  split; [vm_compute; reflexivity|]. split; [exact N|]. split.
  - intros raw H. rewrite N in H. discriminate H.
  - apply get_best_price_invalid; [lia | exact N].
Qed.

(** C10. [normalize_product_code] fails for no integer.  A negative integer
    gives a code that starts with ["P-"] ([-5] gives ["P-05"]); with a
    positive quantity [get_best_price] then goes on to search the rules and,
    when every rule has a canonical code (["P"] followed by digits), fails
    with [NoPriceFound] for that code, not with [InvalidProductIdentifier]. *)
Theorem negative_int_not_rejected (e : PricingEngine) (n quantity customer_id : Z) :
  n < 0 ->
  0 < quantity ->
  Forall (fun p => canonical (product_id p) = true) (prices e) ->
  (forall z : Z, exists code, normalize_product_code (PInt z) = ret code)
  /\ normalize_product_code (PInt (-5)) = ret "P-05"
  /\ (exists rest,
        normalize_product_code (PInt n) = ret ("P-" ++ rest)
        /\ get_best_price e (PInt n) quantity customer_id
           = raise (NoPriceFound ("P-" ++ rest) quantity))
  /\ (forall raw, get_best_price e (PInt n) quantity customer_id
                  <> raise (InvalidProductIdentifier raw)).
Proof.
  intros Hn Hq Hc.
  set (rest := Str.zeros (2 - String.length (Str.str_N (Z.abs_N n)))
               ++ Str.str_N (Z.abs_N n)).
  assert (N : normalize_product_code (PInt n) = ret ("P-" ++ rest)).
  { unfold normalize_product_code. rewrite format_03d_neg by exact Hn. reflexivity. }
  assert (G : get_best_price e (PInt n) quantity customer_id
              = raise (NoPriceFound ("P-" ++ rest) quantity)).
  { apply get_best_price_none; [exact Hq | exact N |].
    intros p Ip Cp. rewrite List.Forall_forall in Hc. specialize (Hc p Ip).
    rewrite (candidate_product_id _ _ _ _ _ Cp) in Hc. discriminate Hc. }
  split; [|split; [|split]].
  - intros z. eexists. reflexivity.
  - reflexivity.
  - exists rest. split; assumption.
  - intros raw. rewrite G. discriminate.
Qed.

(** * The theorems at concrete rule sets *)

Ltac candidate_tac :=
  unfold candidate, applies;
  split; [reflexivity | split; [cbv; discriminate |
    cbn; first [exact I | reflexivity | eexists; split; reflexivity]]].

Lemma customer_rule_beats_normal_witness :
  (price Precedence.normal_rule < price Precedence.customer_rule)%Q
  /\ get_best_price Precedence.engine (PInt 2) 1 6
     = ret {| r_product_id := "P002"; r_price := 50; r_price_type := "CUSTOMER" |}.
Proof.
  split; [reflexivity|].
  destruct (customer_rule_beats_normal Precedence.engine (PInt 2) 1 6 "P002"
              Precedence.customer_rule)
    as (best & _ & _ & _ & _ & CN & _).
  - lia.
  - reflexivity.
  - right. left. reflexivity.
  - candidate_tac.
  - destruct (CN Precedence.customer_rule Precedence.normal_rule)
      as (_ & G & _ & U).
    + right. left. reflexivity.
    + candidate_tac.
    + reflexivity.
    + left. reflexivity.
    + candidate_tac.
    + reflexivity.
    + rewrite G. rewrite U; [reflexivity|].
      intros p [<-|[<-|[]]] _ S; [discriminate S | reflexivity].
Defined.

Lemma lowest_price_within_source_witness :
  exists best,
    In best (prices Ties.engine)
    /\ candidate Ties.engine "P001" 1 0 best
    /\ get_best_price Ties.engine (PInt 1) 1 0
       = ret {| r_product_id := "P001";
                r_price := price best;
                r_price_type := tag (source best) |}
    /\ (forall p, In p (prices Ties.engine) -> candidate Ties.engine "P001" 1 0 p ->
          source p = source best -> ~ (price p < price best)%Q).
Proof.
  apply (lowest_price_within_source Ties.engine (PInt 1) 1 0 "P001" Ties.dearer_rule).
  - lia.
  - reflexivity.
  - left. reflexivity.
  - candidate_tac.
Defined.

Lemma earliest_minimal_rule_wins_witness :
  exists before best after,
    prices Ties.engine = (before ++ best :: after)%list
    /\ candidate Ties.engine "P001" 1 0 best
    /\ get_best_price Ties.engine (PInt 1) 1 0
       = ret {| r_product_id := "P001";
                r_price := price best;
                r_price_type := tag (source best) |}
    /\ (forall p, In p (prices Ties.engine) -> candidate Ties.engine "P001" 1 0 p ->
          rank (source best) < rank (source p)
          \/ (rank (source best) = rank (source p)
              /\ (price best <= price p)%Q))
    /\ (forall p, In p before -> candidate Ties.engine "P001" 1 0 p ->
          ~ (rank (source p) = rank (source best)
             /\ (price p == price best)%Q)).
Proof.
  apply (earliest_minimal_rule_wins Ties.engine (PInt 1) 1 0 "P001" Ties.dearer_rule).
  - lia.
  - reflexivity.
  - left. reflexivity.
  - candidate_tac.
Defined.

Lemma candidate_set_iff_witness :
  In Mistyped.tier_rule (applicable Mistyped.engine "P001" 1 2)
  /\ ~ In Mistyped.customer_rule (applicable Mistyped.engine "P001" 1 7)
  /\ ~ In Mistyped.group_rule (applicable Mistyped.engine "P001" 1 7)
  /\ ~ In Mistyped.tier_rule (applicable Mistyped.engine "P001" 1 7).
Proof.
  split; [|split; [|split]].
  - apply (proj2 (proj1 (candidate_set_iff Mistyped.engine "P001" 1 2
                           Mistyped.tier_rule))).
    split; [right; right; left; reflexivity|].
    split; [reflexivity|]. split; [cbv; discriminate|].
    exists "GOLD". split; reflexivity.
  - apply (proj1 (proj2 (candidate_set_iff Mistyped.engine "P001" 1 7
                           Mistyped.customer_rule))).
    + reflexivity.
    + intros k E. discriminate E.
  - apply (proj1 (proj2 (proj2 (candidate_set_iff Mistyped.engine "P001" 1 7
                                  Mistyped.group_rule)))).
    + right. reflexivity.
    + intros s E. discriminate E.
  - apply (proj2 (proj2 (proj2 (candidate_set_iff Mistyped.engine "P001" 1 7
                                  Mistyped.tier_rule)))).
    + reflexivity.
    + reflexivity.
Defined.

Lemma no_price_found_iff_witness :
  0 < 1
  /\ normalize_product_code (PInt 999) = ret "P999"
  /\ get_best_price Sample.engine (PInt 999) 1 2 = raise (NoPriceFound "P999" 1).
Proof.
  assert (H : 0 < 1) by lia.
  assert (N : normalize_product_code (PInt 999) = ret "P999") by reflexivity.
  split; [exact H|]. split; [exact N|].
  apply (proj1 (no_price_found_iff Sample.engine (PInt 999) 1 2 "P999" H N)).
  intros p Ip (E & _).
  cbn in Ip. repeat (destruct Ip as [<-|Ip]; [discriminate E|]). destruct Ip.
Defined.

Lemma normalize_digits_witness :
  0 <= 7
  /\ Str.isdigit "007" = true
  /\ normalize_product_code (PInt 7) = ret "P007"
  /\ normalize_product_code (PStr "007") = normalize_product_code (PInt 7).
Proof.
  assert (H : 0 <= 7) by lia.
  assert (D : Str.isdigit "007" = true) by reflexivity.
  split; [exact H|]. split; [exact D|].
  destruct (normalize_digits 7 "007" H D) as (A & _ & _ & _ & _ & _ & _ & _ & B).
  split; [exact A | exact B].
Defined.

Lemma normalize_p_prefixed_witness :
  Str.starts_with_p "p12" = true
  /\ normalize_product_code (PStr "p12") = ret "P12".
Proof.
  assert (H : Str.starts_with_p "p12" = true) by reflexivity.
  split; [exact H|].
  exact (proj1 (normalize_p_prefixed "p12" H)).
Defined.

Lemma negative_int_not_rejected_witness :
  -5 < 0
  /\ 0 < 1
  /\ Forall (fun p => canonical (product_id p) = true) (prices Sample.engine)
  /\ exists rest,
       normalize_product_code (PInt (-5)) = ret ("P-" ++ rest)
       /\ get_best_price Sample.engine (PInt (-5)) 1 2
          = raise (NoPriceFound ("P-" ++ rest) 1).
Proof.
  assert (H : -5 < 0) by lia.
  assert (Q : 0 < 1) by lia.
  assert (C : Forall (fun p => canonical (product_id p) = true) (prices Sample.engine))
    by (repeat constructor).
  split; [exact H|]. split; [exact Q|]. split; [exact C|].
  exact (proj1 (proj2 (proj2 (negative_int_not_rejected Sample.engine (-5) 1 2 H Q C)))).
Defined.

(** * The tests of the repository and the scenarios of the specification *)

Example test_customer_priority :
  get_best_price Sample.engine (PInt 2) 1 6
  = ret {| r_product_id := "P002"; r_price := 5; r_price_type := "CUSTOMER" |}.
Proof. reflexivity. Qed.

Example test_tier_priority :
  get_best_price Sample.engine (PInt 1) 4 2
  = ret {| r_product_id := "P001"; r_price := 95; r_price_type := "TIER" |}.
Proof. reflexivity. Qed.

Example test_group_priority :
  get_best_price Sample.engine (PInt 3) 2 6
  = ret {| r_product_id := "P003"; r_price := 50; r_price_type := "GROUP" |}.
Proof. reflexivity. Qed.

Example test_normal_priority :
  get_best_price Sample.engine (PInt 1) 1 6
  = ret {| r_product_id := "P001"; r_price := 100; r_price_type := "NORMAL" |}.
Proof. reflexivity. Qed.

Example test_invalid_quantity :
  get_best_price Sample.engine (PInt 1) 0 2
  = raise (PricingError "Quantity must be greater than zero.").
Proof. reflexivity. Qed.

Example test_missing_product :
  get_best_price Sample.engine (PInt 999) 1 2
  = raise (PricingError "No price found for P999 with quantity 1.").
Proof. reflexivity. Qed.

Example scenario_quantity_below_minimum :
  get_best_price Sample.engine (PInt 3) 1 6
  = raise (PricingError "No price found for P003 with quantity 1.").
Proof. reflexivity. Qed.

Example quantity_checked_before_product_id :
  get_best_price Sample.engine (PStr "abc") 0 2 = raise InvalidQuantity.
Proof. reflexivity. Qed.

Example first_of_equal_prices :
  get_best_price Ties.engine (PInt 1) 1 0 = ret (result_of Ties.first_rule).
Proof. reflexivity. Qed.

Example main_output :
  Main.main
  = ret [ OutResult {| r_product_id := "P001"; r_price := 95; r_price_type := "TIER" |};
          OutResult {| r_product_id := "P002"; r_price := 5;
                       r_price_type := "CUSTOMER" |};
          OutError "P003" "Quantity must be greater than zero.";
          OutError "P005" "No price found for P005 with quantity 2." ].
Proof. reflexivity. Qed.

Example fullwidth_digits_accepted :
  normalize_product_code (PStr "１２") = ret "P012".
Proof. vm_compute. reflexivity. Qed.

Example arabic_indic_digit_accepted :
  normalize_product_code (PStr "٣") = ret "P003".
Proof. vm_compute. reflexivity. Qed.

Example circled_digit_is_no_number :
  normalize_product_code (PStr "1②") = raise (InvalidLiteral "1②").
Proof. vm_compute. reflexivity. Qed.

Example empty_string_rejected :
  normalize_product_code (PStr "") = raise (InvalidProductIdentifier "").
Proof. reflexivity. Qed.

Example letters_rejected :
  normalize_product_code (PStr "é1") = raise (InvalidProductIdentifier "é1").
Proof. vm_compute. reflexivity. Qed.

Example value_error_not_caught_by_main :
  process_rows Main.engine [mkRow (PStr "²") 1 6] [] = raise (InvalidLiteral "²").
Proof. vm_compute. reflexivity. Qed.

(** * Further properties of the code *)

(** ** Normalization *)

Lemma upper_char_idem (c : ascii) :
  Str.upper_char (Str.upper_char c) = Str.upper_char c.
Proof. destruct c as [[|] [|] [|] [|] [|] [|] [|] [|]]; reflexivity. Qed.

Lemma upper_idem (s : string) : Str.upper (Str.upper s) = Str.upper s.
Proof.
  induction s as [|c s IH]; [reflexivity|].
  cbn [Str.upper]. rewrite upper_char_idem, IH. reflexivity.
Qed.

Lemma upper_char_digit (c : ascii) :
  Str.is_digit_char c = true -> Str.upper_char c = c.
Proof.
  destruct c as [[|] [|] [|] [|] [|] [|] [|] [|]]; vm_compute; congruence.
Qed.

Lemma upper_digits (s : string) : Str.all_digits s = true -> Str.upper s = s.
Proof.
  induction s as [|c s IH]; [reflexivity|].
  cbn [Str.all_digits Str.upper]. intros H. apply andb_prop in H.
  destruct H as [Hc Hs]. rewrite (upper_char_digit c Hc), (IH Hs). reflexivity.
Qed.

Lemma all_digits_padded (k : nat) (n : N) :
  Str.all_digits (Str.zeros k ++ Str.str_N n) = true.
Proof.
  rewrite StrFacts.all_digits_app, StrFacts.all_digits_zeros.
  apply StrFacts.all_digits_str_N.
Qed.

Lemma upper_format_03d (n : Z) : Str.upper (Str.format_03d n) = Str.format_03d n.
Proof.
  destruct (Z_lt_le_dec n 0) as [H|H].
  - rewrite (format_03d_neg n H). cbn [Str.upper]. f_equal.
    apply upper_digits, all_digits_padded.
  - unfold Str.format_03d. destruct (Z.ltb_spec n 0); [lia|].
    change (Str.upper (Str.zeros (3 - 0 - String.length (Str.str_N (Z.abs_N n)))
                         ++ Str.str_N (Z.abs_N n))
            = Str.zeros (3 - 0 - String.length (Str.str_N (Z.abs_N n)))
                ++ Str.str_N (Z.abs_N n)).
    apply upper_digits, all_digits_padded.
Qed.

Lemma starts_with_p_upper (s : string) :
  Str.starts_with_p s = true -> exists rest, Str.upper s = String "P" rest.
Proof.
  destruct s as [|c rest]; [discriminate|]. intros H.
  exists (Str.upper rest). cbn [Str.upper]. f_equal.
  apply StrFacts.upper_char_P. cbn [Str.starts_with_p] in H.
  apply orb_prop in H. destruct H as [H|H]; apply Ascii.eqb_eq in H; auto.
Qed.

(** What [normalize_product_code] returns, by the branch taken. *)
Lemma normalize_ret_inv (pid : ProductId) (code : string) :
  normalize_product_code pid = ret code ->
  (exists n, code = String "P" (Str.format_03d n))
  \/ (exists s, Str.starts_with_p s = true /\ code = Str.upper s).
Proof.
  destruct pid as [n|s]; cbn [normalize_product_code].
  - intros H. injection H as <-. left. exists n. reflexivity.
  - rewrite StrFacts.startswith_upper_P.
    destruct (Str.starts_with_p s) eqn:P.
    + intros H. injection H as <-. right. exists s. auto.
    + destruct (Unicode.isdigit s); [|discriminate].
      unfold py_int. destruct (Unicode.int_value s) as [n|]; [|discriminate].
      intros H. injection H as <-. left. exists n. reflexivity.
Qed.

(** X1. A normalized code starts with ["P"], is in upper case already, and
    is a fixed point: normalizing it again, as a string, returns it
    unchanged. *)
Theorem normalize_idempotent (pid : ProductId) (code : string) :
  normalize_product_code pid = ret code ->
  (exists rest, code = String "P" rest)
  /\ Str.upper code = code
  /\ normalize_product_code (PStr code) = ret code.
Proof.
  intros H.
  assert (A : (exists rest, code = String "P" rest) /\ Str.upper code = code).
  { destruct (normalize_ret_inv pid code H) as [(n & ->)|(s & P & ->)].
    - split; [eexists; reflexivity|].
      cbn [Str.upper]. rewrite upper_format_03d. reflexivity.
    - split; [apply starts_with_p_upper, P | apply upper_idem]. }
  destruct A as [(rest & E) U]. split; [eauto|]. split; [exact U|].
  unfold normalize_product_code. rewrite U. rewrite E.
  rewrite StrFacts.startswith_P_cons. reflexivity.
Qed.

Lemma normalize_idempotent_witness :
  normalize_product_code (PStr "p1a") = ret "P1A"
  /\ normalize_product_code (PStr "P1A") = ret "P1A".
Proof.
  assert (H : normalize_product_code (PStr "p1a") = ret "P1A") by reflexivity.
  split; [exact H|].
  exact (proj2 (proj2 (normalize_idempotent (PStr "p1a") "P1A" H))).
Defined.

Lemma format_03d_digits_value (n : Z) :
  0 <= n -> Str.int_digits 0 (Str.format_03d n) = Z.abs_N n.
Proof.
  intros H. unfold Str.format_03d. destruct (Z.ltb_spec n 0); [lia|].
  change (Str.int_digits 0
            (Str.zeros (3 - 0 - String.length (Str.str_N (Z.abs_N n)))
               ++ Str.str_N (Z.abs_N n)) = Z.abs_N n).
  rewrite StrFacts.int_digits_zeros. apply StrFacts.int_digits_str_N.
Qed.

Lemma format_03d_nonneg_digits (n : Z) :
  0 <= n -> Str.all_digits (Str.format_03d n) = true.
Proof.
  intros H. unfold Str.format_03d. destruct (Z.ltb_spec n 0); [lia|].
  apply all_digits_padded.
Qed.

Lemma format_03d_inj (a b : Z) : Str.format_03d a = Str.format_03d b -> a = b.
Proof.
  intros E.
  destruct (Z_lt_le_dec a 0) as [Ha|Ha]; destruct (Z_lt_le_dec b 0) as [Hb|Hb].
  - rewrite (format_03d_neg a Ha), (format_03d_neg b Hb) in E.
    injection E as E. apply (f_equal (Str.int_digits 0)) in E.
    rewrite !StrFacts.int_digits_zeros, !StrFacts.int_digits_str_N in E. lia.
  - pose proof (format_03d_nonneg_digits b Hb) as D.
    rewrite <- E, (format_03d_neg a Ha) in D. discriminate D.
  - pose proof (format_03d_nonneg_digits a Ha) as D.
    rewrite E, (format_03d_neg b Hb) in D. discriminate D.
  - apply (f_equal (Str.int_digits 0)) in E.
    rewrite (format_03d_digits_value a Ha), (format_03d_digits_value b Hb) in E. lia.
Qed.

(** X2. Two integers have the same normalized code only when they are the
    same integer, negative ones included: padding never makes two product
    numbers collide. *)
Theorem normalize_int_injective (a b : Z) :
  normalize_product_code (PInt a) = normalize_product_code (PInt b) -> a = b.
Proof.
  cbn [normalize_product_code]. intros H. injection H as H.
  apply format_03d_inj, H.
Qed.

Lemma normalize_int_injective_witness :
  normalize_product_code (PInt 12) = normalize_product_code (PInt (7 + 5))
  /\ 12 = 7 + 5.
Proof.
  assert (H : normalize_product_code (PInt 12) = normalize_product_code (PInt (7 + 5)))
    by reflexivity.
  split; [exact H | exact (normalize_int_injective 12 (7 + 5) H)].
Defined.

(** X3. Two strings of digits have the same normalized code exactly when
    they denote the same number: leading zeros do not matter (["7"] and
    ["007"] both give ["P007"]), different numbers never collide. *)
Theorem normalize_digit_strings_agree (s t : string) :
  Str.isdigit s = true ->
  Str.isdigit t = true ->
  (normalize_product_code (PStr s) = normalize_product_code (PStr t)
   <-> Str.int s = Str.int t).
Proof.
  intros Hs Ht.
  rewrite (normalize_digit_string s Hs), (normalize_digit_string t Ht).
  split.
  - intros H. injection H as H. apply format_03d_inj, H.
  - intros ->. reflexivity.
Qed.

Lemma normalize_digit_strings_agree_witness :
  Str.isdigit "7" = true
  /\ Str.isdigit "007" = true
  /\ normalize_product_code (PStr "7") = normalize_product_code (PStr "007").
Proof.
  assert (Hs : Str.isdigit "7" = true) by reflexivity.
  assert (Ht : Str.isdigit "007" = true) by reflexivity.
  split; [exact Hs|]. split; [exact Ht|].
  apply (proj2 (normalize_digit_strings_agree "7" "007" Hs Ht)). reflexivity.
Defined.

(** ** Outcomes of [get_best_price] *)

Lemma PRIORITY_inj (s t : PriceType) : PRIORITY s = PRIORITY t -> s = t.
Proof. destruct s, t; cbn; intros H; try reflexivity; discriminate H. Qed.

Lemma key_le_antisym (p p' : PriceEntry) :
  key_le (sort_key p) (sort_key p') -> key_le (sort_key p') (sort_key p) ->
  source p = source p' /\ (price p == price p')%Q.
Proof.
  unfold key_le, sort_key. cbn [fst snd].
  intros [L|[E L]] [L'|[E' L']]; try lia.
  split; [apply PRIORITY_inj, E | apply Qle_antisym; assumption].
Qed.

(** An accepted call either finds no candidate and fails, or returns a
    candidate with a least key. *)
Lemma get_best_price_cases (e : PricingEngine) (pid : ProductId)
    (quantity customer_id : Z) (prod_code : string) :
  0 < quantity ->
  normalize_product_code pid = ret prod_code ->
  ((forall p, In p (prices e) -> ~ candidate e prod_code quantity customer_id p)
   /\ get_best_price e pid quantity customer_id
      = raise (NoPriceFound prod_code quantity))
  \/ (exists best,
        In best (prices e)
        /\ candidate e prod_code quantity customer_id best
        /\ get_best_price e pid quantity customer_id = ret (result_of best)
        /\ (forall p, In p (prices e) ->
              candidate e prod_code quantity customer_id p ->
              key_le (sort_key best) (sort_key p))).
Proof.
  intros H N.
  destruct (applicable e prod_code quantity customer_id) as [|x l] eqn:A.
  - assert (Hno : forall p, In p (prices e) ->
                    ~ candidate e prod_code quantity customer_id p).
    { intros p Ip Cp.
      assert (I : In p (applicable e prod_code quantity customer_id))
        by (apply In_applicable; auto).
      rewrite A in I. destruct I. }
    left. split; [exact Hno|]. apply get_best_price_none; assumption.
  - assert (I : In x (applicable e prod_code quantity customer_id))
      by (rewrite A; left; reflexivity).
    apply In_applicable in I. destruct I as [I C].
    right. exact (get_best_price_minimal e pid quantity customer_id prod_code H N x I C).
Qed.

(** A call that returns has passed the two checks and found a candidate. *)
Lemma get_best_price_ret_inv (e : PricingEngine) (pid : ProductId)
    (quantity customer_id : Z) (r : Result) :
  get_best_price e pid quantity customer_id = ret r ->
  0 < quantity
  /\ exists prod_code p0,
       normalize_product_code pid = ret prod_code
       /\ In p0 (prices e)
       /\ candidate e prod_code quantity customer_id p0.
Proof.
  intros G.
  destruct (Z_le_gt_dec quantity 0) as [L|L].
  { rewrite get_best_price_nonpositive in G by exact L. discriminate G. }
  split; [lia|].
  destruct (normalize_product_code pid) as [err|code] eqn:N.
  { rewrite (get_best_price_invalid e pid quantity customer_id err) in G
      by (try lia; exact N).
    discriminate G. }
  exists code.
  destruct (get_best_price_cases e pid quantity customer_id code) as
    [[_ F]|(best & Ib & Cb & _)]; [lia | exact N | |].
  - rewrite F in G. discriminate G.
  - exists best. auto.
Qed.

(** The first candidate with a least key is unique as a position of the
    list. *)
Lemma first_minimal_unique (P : PriceEntry -> Prop) (l b a b' a' : list PriceEntry)
    (x x' : PriceEntry) :
  l = (b ++ x :: a)%list -> l = (b' ++ x' :: a')%list ->
  P x -> P x' ->
  (forall p, In p b -> P p -> key_lt (sort_key x) (sort_key p)) ->
  (forall p, In p a -> P p -> key_le (sort_key x) (sort_key p)) ->
  (forall p, In p b' -> P p -> key_lt (sort_key x') (sort_key p)) ->
  (forall p, In p a' -> P p -> key_le (sort_key x') (sort_key p)) ->
  x = x'.
Proof.
  intros E E' Px Px' Hb Ha Hb' Ha'. rewrite E in E'.
  apply app_eq_app in E'. destruct E' as (c & [[E1 E2]|[E1 E2]]).
  - destruct c as [|y c].
    + cbn in E2. injection E2 as E2 _. congruence.
    + cbn in E2. injection E2 as E2 E3. subst y.
      assert (L1 : key_lt (sort_key x) (sort_key x')).
      { apply Hb; [|exact Px']. rewrite E1. apply in_or_app. right. left. reflexivity. }
      assert (L2 : key_le (sort_key x') (sort_key x)).
      { apply Ha'; [|exact Px]. rewrite E3. apply in_or_app. right. left. reflexivity. }
      apply tuple_lt_iff in L1. apply tuple_lt_false_iff in L2. congruence.
  - destruct c as [|y c].
    + cbn in E2. injection E2 as E2 _. congruence.
    + cbn in E2. injection E2 as E2 E3. subst y.
      assert (L1 : key_lt (sort_key x') (sort_key x)).
      { apply Hb'; [|exact Px]. rewrite E1. apply in_or_app. right. left. reflexivity. }
      assert (L2 : key_le (sort_key x) (sort_key x')).
      { apply Ha; [|exact Px']. rewrite E3. apply in_or_app. right. left. reflexivity. }
      apply tuple_lt_iff in L1. apply tuple_lt_false_iff in L2. congruence.
Qed.

(** X4. [get_best_price] returns a result exactly when the quantity is
    positive, the product identifier normalizes, and the result holds the
    normalized code with the price and the tag of the rule at the one
    position of [prices] that holds a candidate strictly better, by rank of
    the source and then by price, than every candidate before it and at
    least as good as every candidate after it.  So a returned price is
    always the price of a rule of the engine that applies to the request, and
    the conditions fix the result. *)
Theorem get_best_price_returns_iff (e : PricingEngine) (pid : ProductId)
    (quantity customer_id : Z) (r : Result) :
  get_best_price e pid quantity customer_id = ret r
  <-> 0 < quantity
      /\ exists prod_code before best after,
           normalize_product_code pid = ret prod_code
           /\ prices e = (before ++ best :: after)%list
           /\ candidate e prod_code quantity customer_id best
           /\ r = {| r_product_id := prod_code;
                     r_price := price best;
                     r_price_type := tag (source best) |}
           /\ (forall p, In p before ->
                 candidate e prod_code quantity customer_id p ->
                 better best p)
           /\ (forall p, In p after ->
                 candidate e prod_code quantity customer_id p ->
                 as_good best p).
Proof.
  split.
  - intros G.
    destruct (get_best_price_ret_inv e pid quantity customer_id r G)
      as (Hq & code & p0 & N & I0 & C0).
    split; [exact Hq|].
    destruct (get_best_price_some e pid quantity customer_id code Hq N p0 I0 C0)
      as (b & best & a & P & G' & Cb & Hb & Ha).
    exists code, b, best, a.
    split; [exact N|]. split; [exact P|]. split; [exact Cb|]. split; [|split].
    + rewrite G in G'. injection G' as ->.
      apply (result_of_candidate _ _ _ _ _ Cb).
    + intros p Ip Cp. apply (proj1 (key_lt_better best p)), Hb; assumption.
    + intros p Ip Cp. apply (proj1 (key_le_as_good best p)), Ha; assumption.
  - intros (Hq & code & b & best & a & N & P & Cb & -> & Hb & Ha).
    assert (Ib : In best (prices e))
      by (rewrite P; apply in_or_app; right; left; reflexivity).
    destruct (get_best_price_some e pid quantity customer_id code Hq N best Ib Cb)
      as (b' & best' & a' & P' & G' & Cb' & Hb' & Ha').
    rewrite G'. f_equal.
    assert (Kb : forall p, In p b -> candidate e code quantity customer_id p ->
                   key_lt (sort_key best) (sort_key p)).
    { intros p Ip Cp. apply (proj2 (key_lt_better best p)), Hb; assumption. }
    assert (Ka : forall p, In p a -> candidate e code quantity customer_id p ->
                   key_le (sort_key best) (sort_key p)).
    { intros p Ip Cp. apply (proj2 (key_le_as_good best p)), Ha; assumption. }
    assert (E : best = best').
    { exact (first_minimal_unique (candidate e code quantity customer_id)
               (prices e) b a b' a' best best' P P' Cb Cb' Kb Ka Hb' Ha'). }
    subst best'. apply (result_of_candidate _ _ _ _ _ Cb).
Qed.

(** X5. [get_best_price] fails in four ways and no other: with
    [InvalidQuantity] when the quantity is not positive; otherwise, for a
    string that does not start with [P] or [p], with
    [InvalidProductIdentifier] when [s.isdigit()] is false and with the
    [ValueError] of [int] when [s.isdigit()] is true but [int] rejects the
    string; otherwise with [NoPriceFound] for the normalized code when no
    rule is a candidate. *)
Theorem get_best_price_raises_iff (e : PricingEngine) (pid : ProductId)
    (quantity customer_id : Z) (err : exn) :
  get_best_price e pid quantity customer_id = raise err
  <-> (quantity <= 0 /\ err = InvalidQuantity)
      \/ (0 < quantity
          /\ exists s, pid = PStr s
                       /\ normalize_product_code pid = raise err
                       /\ Unicode.isdigit s = false
                       /\ err = InvalidProductIdentifier s)
      \/ (0 < quantity
          /\ exists s, pid = PStr s
                       /\ normalize_product_code pid = raise err
                       /\ Unicode.isdigit s = true
                       /\ err = InvalidLiteral s)
      \/ (0 < quantity
          /\ exists prod_code,
               normalize_product_code pid = ret prod_code
               /\ (forall p, In p (prices e) ->
                     ~ candidate e prod_code quantity customer_id p)
               /\ err = NoPriceFound prod_code quantity).
Proof.
  split.
  - intros G. destruct (Z_le_gt_dec quantity 0) as [L|L].
    { left. split; [exact L|].
      rewrite get_best_price_nonpositive in G by exact L. injection G as <-.
      reflexivity. }
    right. destruct (normalize_product_code pid) as [err'|code] eqn:N.
    + rewrite (get_best_price_invalid e pid quantity customer_id err') in G
        by (try lia; exact N).
      injection G as <-.
      destruct (normalize_raises pid err' N) as (s & E & [[D ->]|[D ->]]).
      * left. split; [lia|]. exists s. rewrite <- N. auto.
      * right. left. split; [lia|]. exists s. rewrite <- N. auto.
    + right. right. split; [lia|]. exists code. split; [reflexivity|].
      destruct (get_best_price_cases e pid quantity customer_id code) as
        [[Hno F]|(best & _ & _ & F & _)]; [lia | exact N | |].
      * rewrite F in G. injection G as <-. auto.
      * rewrite F in G. discriminate G.
  - intros [[L ->]|[(L & s & _ & N & _)|[(L & s & _ & N & _)
                                          |(L & code & N & Hno & ->)]]].
    + apply get_best_price_nonpositive, L.
    + apply get_best_price_invalid; assumption.
    + apply get_best_price_invalid; assumption.
    + apply get_best_price_none; assumption.
Qed.

Lemma get_best_price_raises_iff_witness :
  get_best_price Sample.engine (PStr "②") 1 6 = raise (InvalidLiteral "②").
Proof.
  apply (proj2 (get_best_price_raises_iff Sample.engine (PStr "②") 1 6
                  (InvalidLiteral "②"))).
  right. right. left. split; [lia|]. exists "②".
  repeat split; vm_compute; reflexivity.
Defined.

(** ** Which rule wins *)

(** X6. The source of highest precedence among the candidates wins, for all
    four sources: when [p0] is a candidate and no candidate has a source of
    smaller priority number, the result carries the tag of the source of
    [p0] and the price of a candidate of that source, at most the price of
    [p0]. *)
Theorem highest_precedence_source_wins (e : PricingEngine) (pid : ProductId)
    (quantity customer_id : Z) (prod_code : string) (p0 : PriceEntry) :
  0 < quantity ->
  normalize_product_code pid = ret prod_code ->
  In p0 (prices e) -> candidate e prod_code quantity customer_id p0 ->
  (forall p, In p (prices e) -> candidate e prod_code quantity customer_id p ->
     PRIORITY (source p0) <= PRIORITY (source p)) ->
  exists best,
    In best (prices e)
    /\ candidate e prod_code quantity customer_id best
    /\ source best = source p0
    /\ (price best <= price p0)%Q
    /\ get_best_price e pid quantity customer_id
       = ret {| r_product_id := prod_code;
                r_price := price best;
                r_price_type := value (source p0) |}.
Proof.
  intros H N I0 C0 Hp.
  destruct (get_best_price_minimal e pid quantity customer_id prod_code H N p0 I0 C0)
    as (best & Ib & Cb & G & Hmin).
  pose proof (Hmin p0 I0 C0) as L. pose proof (Hp best Ib Cb) as L'.
  unfold key_le, sort_key in L. cbn [fst snd] in L.
  assert (S : source best = source p0).
  { apply PRIORITY_inj. destruct L as [L|[L _]]; lia. }
  exists best. repeat split; try assumption; try apply Cb.
  - destruct L as [L|[_ L]]; [rewrite S in L; lia | exact L].
  - rewrite G. unfold result_of.
    rewrite S, (candidate_product_id _ _ _ _ _ Cb). reflexivity.
Qed.

Lemma highest_precedence_source_wins_witness :
  get_best_price Main.engine (PInt 1) 4 2
  = ret {| r_product_id := "P001"; r_price := 95; r_price_type := "TIER" |}.
Proof.
  destruct (highest_precedence_source_wins Main.engine (PInt 1) 4 2 "P001"
              (mkPriceEntry "P001" 3 95 TIER (KStr "GOLD")))
    as (best & Ib & Cb & Sb & _ & G).
  - lia.
  - reflexivity.
  - right. left. reflexivity.
  - candidate_tac.
  - intros p Ip Cp. cbn in Ip.
    destruct Ip as [<-|[<-|[<-|[<-|[<-|[]]]]]]; cbn; try lia;
      destruct Cp as (E & _); discriminate E.
  - rewrite G. cbn in Ib.
    destruct Ib as [<-|[<-|[<-|[<-|[<-|[]]]]]];
      try reflexivity; try discriminate Sb;
      destruct Cb as (E & _); discriminate E.
Defined.

Lemma candidate_ext (e e' : PricingEngine) (prod_code : string)
    (quantity customer_id : Z) (p : PriceEntry) :
  customer_tiers e = customer_tiers e' ->
  customer_groups e = customer_groups e' ->
  candidate e prod_code quantity customer_id p ->
  candidate e' prod_code quantity customer_id p.
Proof.
  intros Ht Hg. unfold candidate, applies. rewrite Ht, Hg. auto.
Qed.

(** X7. The order of the rules does not change the answer: two engines with
    the same mappings whose rule lists are permutations of each other fail
    with the same exception, or both return, with the same product code, the
    same tag and equal prices. *)
Theorem rule_order_irrelevant (e e' : PricingEngine) (pid : ProductId)
    (quantity customer_id : Z) :
  Permutation (prices e) (prices e') ->
  customer_tiers e = customer_tiers e' ->
  customer_groups e = customer_groups e' ->
  match get_best_price e pid quantity customer_id,
        get_best_price e' pid quantity customer_id with
  | inl err, inl err' => err = err'
  | inr r, inr r' =>
      r_product_id r = r_product_id r'
      /\ r_price_type r = r_price_type r'
      /\ (r_price r == r_price r')%Q
  | _, _ => False
  end.
Proof.
  intros HP Ht Hg.
  destruct (Z_le_gt_dec quantity 0) as [L|L].
  { rewrite !get_best_price_nonpositive by exact L. reflexivity. }
  destruct (normalize_product_code pid) as [err|code] eqn:N.
  { rewrite !(get_best_price_invalid _ pid quantity customer_id err)
      by (try lia; exact N).
    reflexivity. }
  assert (Hq : 0 < quantity) by lia.
  destruct (get_best_price_cases e pid quantity customer_id code Hq N)
    as [[Hno F]|(best & Ib & Cb & F & Hmin)];
    destruct (get_best_price_cases e' pid quantity customer_id code Hq N)
    as [[Hno' F']|(best' & Ib' & Cb' & F' & Hmin')];
    rewrite F, F'.
  - reflexivity.
  - apply (Hno best').
    + apply Permutation_in with (prices e'); [symmetry; exact HP | exact Ib'].
    + apply (candidate_ext e' e); auto.
  - apply (Hno' best).
    + apply Permutation_in with (prices e); [exact HP | exact Ib].
    + apply (candidate_ext e e'); auto.
  - assert (A : key_le (sort_key best) (sort_key best')).
    { apply Hmin.
      - apply Permutation_in with (prices e'); [symmetry; exact HP | exact Ib'].
      - apply (candidate_ext e' e); auto. }
    assert (B : key_le (sort_key best') (sort_key best)).
    { apply Hmin'.
      - apply Permutation_in with (prices e); [exact HP | exact Ib].
      - apply (candidate_ext e e'); auto. }
    destruct (key_le_antisym best best' A B) as [S Q].
    unfold ret, result_of. cbn [r_product_id r_price r_price_type].
    rewrite (candidate_product_id _ _ _ _ _ Cb), (candidate_product_id _ _ _ _ _ Cb'), S.
    auto.
Qed.

Lemma rule_order_irrelevant_witness :
  Permutation (prices Sample.engine) (rev Sample.prices)
  /\ match get_best_price Sample.engine (PInt 1) 4 2,
           get_best_price
             (mkPricingEngine (rev Sample.prices) Sample.customer_tiers
                Sample.customer_groups) (PInt 1) 4 2 with
     | inl err, inl err' => err = err'
     | inr r, inr r' =>
         r_product_id r = r_product_id r'
         /\ r_price_type r = r_price_type r'
         /\ (r_price r == r_price r')%Q
     | _, _ => False
     end.
Proof.
  split; [apply Permutation_rev|].
  exact (rule_order_irrelevant Sample.engine
           (mkPricingEngine (rev Sample.prices) Sample.customer_tiers
              Sample.customer_groups) (PInt 1) 4 2
           (Permutation_rev Sample.prices) eq_refl eq_refl).
Defined.

(** X8. Asking for a larger quantity never gives a worse answer: when the
    call returns for [quantity] it returns for every larger quantity, and the
    rule whose price and tag it then returns is at least as good, by rank of
    the source and then by price, as the rule whose price and tag it returned
    before. *)
Theorem larger_quantity_never_worse (e : PricingEngine) (pid : ProductId)
    (quantity quantity' customer_id : Z) (r : Result) :
  get_best_price e pid quantity customer_id = ret r ->
  quantity <= quantity' ->
  exists prod_code best best',
    normalize_product_code pid = ret prod_code
    /\ In best (prices e) /\ In best' (prices e)
    /\ r = {| r_product_id := prod_code;
              r_price := price best;
              r_price_type := tag (source best) |}
    /\ get_best_price e pid quantity' customer_id
       = ret {| r_product_id := prod_code;
                r_price := price best';
                r_price_type := tag (source best') |}
    /\ (rank (source best') < rank (source best)
        \/ (rank (source best') = rank (source best)
            /\ (price best' <= price best)%Q)).
Proof.
  intros G Hle.
  destruct (get_best_price_ret_inv e pid quantity customer_id r G)
    as (Hq & code & p0 & N & I0 & C0).
  destruct (get_best_price_minimal e pid quantity customer_id code Hq N p0 I0 C0)
    as (best & Ib & Cb & G1 & _).
  assert (Cb' : candidate e code quantity' customer_id best).
  { destruct Cb as (A & B & C). repeat split; [exact A | lia | exact C]. }
  assert (Hq' : 0 < quantity') by lia.
  destruct (get_best_price_minimal e pid quantity' customer_id code Hq' N best Ib Cb')
    as (best' & Ib' & Cbb & G2 & Hmin).
  exists code, best, best'.
  split; [exact N|]. split; [exact Ib|]. split; [exact Ib'|].
  split; [|split].
  - rewrite G in G1. injection G1 as ->. apply (result_of_candidate _ _ _ _ _ Cb).
  - rewrite G2, (result_of_candidate _ _ _ _ _ Cbb). reflexivity.
  - apply (proj1 (key_le_as_good best' best)), Hmin; assumption.
Qed.

Lemma larger_quantity_never_worse_witness :
  exists prod_code best best',
    normalize_product_code (PInt 1) = ret prod_code
    /\ In best (prices Sample.engine) /\ In best' (prices Sample.engine)
    /\ {| r_product_id := "P001"; r_price := 100; r_price_type := "NORMAL" |}
       = {| r_product_id := prod_code;
            r_price := price best;
            r_price_type := tag (source best) |}
    /\ get_best_price Sample.engine (PInt 1) 4 2
       = ret {| r_product_id := prod_code;
                r_price := price best';
                r_price_type := tag (source best') |}
    /\ (rank (source best') < rank (source best)
        \/ (rank (source best') = rank (source best)
            /\ (price best' <= price best)%Q)).
Proof.
  apply (larger_quantity_never_worse Sample.engine (PInt 1) 1 4 2).
  - reflexivity.
  - lia.
Defined.

Lemma filter_none {A} (f : A -> bool) (l : list A) :
  (forall x, In x l -> f x = false) -> List.filter f l = [].
Proof.
  induction l as [|x l IH]; intros H; [reflexivity|].
  cbn [List.filter]. rewrite (H x) by (left; reflexivity).
  apply IH. intros y Hy. apply H. right. exact Hy.
Qed.

(** X9. Rules that are not candidates for a request have no effect on it:
    inserting any such rules anywhere in the list leaves the outcome of the
    request, result or exception, unchanged. *)
Theorem non_candidates_ignored (l1 extra l2 : list PriceEntry)
    (tiers groups : gmap Z string) (pid : ProductId) (quantity customer_id : Z) :
  (forall prod_code p,
     normalize_product_code pid = ret prod_code -> In p extra ->
     ~ candidate (mkPricingEngine (l1 ++ l2) tiers groups)
         prod_code quantity customer_id p) ->
  get_best_price (mkPricingEngine (l1 ++ extra ++ l2) tiers groups)
    pid quantity customer_id
  = get_best_price (mkPricingEngine (l1 ++ l2) tiers groups)
      pid quantity customer_id.
Proof.
  intros H. unfold get_best_price.
  destruct (quantity <=? 0); [reflexivity|]. cbn [bind ret].
  destruct (normalize_product_code pid) as [err|code] eqn:N; [reflexivity|].
  cbn [bind]. unfold applicable. cbn [prices customer_tiers customer_groups].
  rewrite !List.filter_app.
  rewrite (filter_none _ extra); [reflexivity|].
  intros p Ip. apply Bool.not_true_is_false. intros T.
  apply (H code p eq_refl Ip).
  apply (matches_iff (mkPricingEngine (l1 ++ l2) tiers groups)). exact T.
Qed.

Lemma non_candidates_ignored_witness :
  get_best_price
    (mkPricingEngine
       ([Precedence.normal_rule] ++ Sample.prices ++ [Precedence.customer_rule])
       ∅ ∅) (PStr "P002x") 1 6
  = get_best_price (mkPricingEngine ([Precedence.normal_rule]
                                       ++ [Precedence.customer_rule]) ∅ ∅)
      (PStr "P002x") 1 6.
Proof.
  apply (non_candidates_ignored [Precedence.normal_rule] Sample.prices
           [Precedence.customer_rule] ∅ ∅ (PStr "P002x") 1 6).
  intros code p N Ip (E & _). cbn in N. injection N as <-.
  cbn in Ip. repeat (destruct Ip as [<-|Ip]; [discriminate E|]). destruct Ip.
Defined.

Lemma matches_unknown (e : PricingEngine) (prod_code : string)
    (quantity customer_id : Z) (p : PriceEntry) :
  unknown_customer e customer_id ->
  In p (prices e) ->
  matches prod_code quantity customer_id
    (customer_tiers e !! customer_id) (customer_groups e !! customer_id) p
  = String.eqb (product_id p) prod_code && (quantity >=? min_qty p)
    && is_source (source p) NORMAL.
Proof.
  intros (Ht & Hg & Hc) Ip. unfold matches. rewrite Ht, Hg. f_equal.
  destruct (source p) eqn:S; cbn [is_source andb orb];
    try (destruct (key p); reflexivity).
  destruct (key_is_int_eq (key p) customer_id) eqn:K; [|reflexivity].
  apply key_is_int_eq_iff in K. exfalso. exact (Hc p Ip S K).
Qed.

(** X10. All customers the engine knows nothing about (no tier, no group, no
    CUSTOMER rule of their own) get the same outcome for a request, and when
    it is a result its tag is ["NORMAL"]. *)
Theorem unknown_customers_get_normal_price (e : PricingEngine) (pid : ProductId)
    (quantity customer_id customer_id' : Z) :
  unknown_customer e customer_id ->
  unknown_customer e customer_id' ->
  get_best_price e pid quantity customer_id
  = get_best_price e pid quantity customer_id'
  /\ (forall r, get_best_price e pid quantity customer_id = ret r ->
        r_price_type r = "NORMAL").
Proof.
  intros U U'. split.
  - unfold get_best_price.
    destruct (quantity <=? 0); [reflexivity|]. cbn [bind ret].
    destruct (normalize_product_code pid) as [err|code]; [reflexivity|].
    cbn [bind].
    assert (A : applicable e code quantity customer_id
                = applicable e code quantity customer_id').
    { unfold applicable. apply List.filter_ext_in. intros p Ip.
      rewrite (matches_unknown e code quantity customer_id p U Ip).
      rewrite (matches_unknown e code quantity customer_id' p U' Ip).
      reflexivity. }
    rewrite A. reflexivity.
  - intros r G.
    destruct (get_best_price_ret_inv e pid quantity customer_id r G)
      as (Hq & code & p0 & N & I0 & C0).
    destruct (get_best_price_minimal e pid quantity customer_id code Hq N p0 I0 C0)
      as (best & Ib & Cb & G1 & _).
    rewrite G in G1. injection G1 as ->.
    destruct U as (Ht & Hg & Hc). destruct Cb as (_ & _ & A).
    unfold applies in A. unfold result_of. cbn [r_price_type].
    destruct (source best) eqn:S.
    + exfalso. exact (Hc best Ib S A).
    + destruct A as (t & _ & A). congruence.
    + destruct A as (g & _ & A). congruence.
    + reflexivity.
Qed.

Lemma unknown_customers_get_normal_price_witness :
  unknown_customer Sample.engine 40
  /\ unknown_customer Sample.engine 41
  /\ get_best_price Sample.engine (PInt 2) 1 40
     = get_best_price Sample.engine (PInt 2) 1 41.
Proof.
  assert (U : forall c, c = 40 \/ c = 41 -> unknown_customer Sample.engine c).
  { intros c Hc. split; [|split].
    - destruct Hc as [->| ->]; reflexivity.
    - destruct Hc as [->| ->]; reflexivity.
    - intros p Ip S K. cbn in Ip.
      destruct Ip as [<-|[<-|[<-|[<-|[<-|[]]]]]]; try discriminate S.
      cbn in K. injection K as K. lia. }
  split; [apply U; auto|]. split; [apply U; auto|].
  exact (proj1 (unknown_customers_get_normal_price Sample.engine (PInt 2) 1 40 41
                  (U 40 (or_introl eq_refl)) (U 41 (or_intror eq_refl)))).
Defined.

(** ** The driver *)

Lemma process_row_ok (engine : PricingEngine) (row : Row) :
  row_normalizes row ->
  exists out, process_row engine row = ret out /\ output_of engine row out.
Proof.
  intros (code & N). unfold process_row.
  destruct (Z_le_gt_dec (row_quantity row) 0) as [L|L].
  - pose proof (get_best_price_nonpositive engine (row_product_id row)
                  (row_quantity row) (row_customer_id row) L) as G.
    rewrite G. unfold raise, InvalidQuantity. rewrite N. cbn [bind message].
    eexists. split; [reflexivity|]. cbn [output_of].
    split; [exact N|]. split; [exact G|]. left. split; [exact L | reflexivity].
  - destruct (get_best_price_cases engine (row_product_id row) (row_quantity row)
                (row_customer_id row) code) as [[_ F]|(best & _ & _ & F & _)];
      [lia | exact N | |].
    + rewrite F. unfold raise, NoPriceFound. rewrite N. cbn [bind message].
      eexists. split; [reflexivity|]. cbn [output_of].
      split; [exact N|]. split; [exact F|]. right. split; [lia | reflexivity].
    + rewrite F. unfold ret at 1. exists (OutResult (result_of best)).
      split; [reflexivity | exact F].
Qed.

Lemma process_row_raises (engine : PricingEngine) (row : Row) (err : exn) :
  normalize_product_code (row_product_id row) = raise err ->
  process_row engine row = raise err.
Proof.
  intros N. unfold process_row.
  destruct (Z_le_gt_dec (row_quantity row) 0) as [L|L].
  - rewrite get_best_price_nonpositive by exact L.
    unfold raise at 1, InvalidQuantity. rewrite N. reflexivity.
  - rewrite (get_best_price_invalid engine _ _ _ err) by (try lia; exact N).
    unfold raise at 1. destruct err as [msg|msg]; [|reflexivity].
    rewrite N. reflexivity.
Qed.

(** X11. When the product identifier of every row can be normalized, the
    loop of [main] completes and appends exactly one output per row, in the
    order of the rows: the result of the call for the row, or its normalized
    code with the message of the failure, which is then an invalid quantity
    or a missing price. *)
Theorem process_rows_completes (engine : PricingEngine) (input_data : list Row)
    (outputs : list Output) :
  Forall row_normalizes input_data ->
  exists outs,
    process_rows engine input_data outputs = ret (outputs ++ outs)%list
    /\ Forall2 (output_of engine) input_data outs
    /\ List.length outs = List.length input_data.
Proof.
  intros H. revert outputs.
  induction H as [|row rest Hrow Hrest IH]; intros outputs.
  - exists []. cbn. rewrite app_nil_r. repeat split. constructor.
  - destruct (process_row_ok engine row Hrow) as (out & P & O).
    destruct (IH (outputs ++ [out])%list) as (outs & R & F & L).
    exists (out :: outs). cbn [process_rows]. rewrite P. unfold ret at 1. cbn [bind].
    rewrite R, <- app_assoc. cbn. repeat split.
    + constructor; assumption.
    + rewrite L. reflexivity.
Qed.

Lemma process_rows_completes_witness :
  Forall row_normalizes Main.input_data
  /\ exists outs,
       process_rows Main.engine Main.input_data [] = ret ([] ++ outs)%list
       /\ Forall2 (output_of Main.engine) Main.input_data outs
       /\ List.length outs = List.length Main.input_data.
Proof.
  assert (H : Forall row_normalizes Main.input_data)
    by (repeat constructor; eexists; reflexivity).
  split; [exact H|].
  exact (process_rows_completes Main.engine Main.input_data [] H).
Defined.

(** X12. The [except] branch of the loop normalizes the product identifier
    again, outside any [try], and it catches [PricingError] only: at the
    first row whose product identifier cannot be normalized the loop stops
    with the exception of [normalize_product_code], the [PricingError] of an
    invalid identifier or the [ValueError] of [int], and nothing is printed,
    whatever the quantity of the row and whatever rows follow. *)
Theorem process_rows_aborts (engine : PricingEngine) (before after : list Row)
    (row : Row) (outputs : list Output) (err : exn) :
  Forall row_normalizes before ->
  normalize_product_code (row_product_id row) = raise err ->
  process_rows engine (before ++ row :: after) outputs = raise err
  /\ exists s, row_product_id row = PStr s
               /\ ((Unicode.isdigit s = false /\ err = InvalidProductIdentifier s)
                   \/ (Unicode.isdigit s = true /\ err = InvalidLiteral s)).
Proof.
  intros H N. split.
  - revert outputs. induction H as [|r rest Hr Hrest IH]; intros outputs.
    + cbn [app process_rows]. rewrite (process_row_raises engine row err N).
      reflexivity.
    + destruct (process_row_ok engine r Hr) as (out & P & _).
      cbn [app process_rows]. rewrite P. unfold ret at 1. cbn [bind]. apply IH.
  - exact (normalize_raises _ _ N).
Qed.

Lemma process_rows_aborts_witness :
  process_rows Main.engine
    ([mkRow (PInt 1) 4 2] ++ mkRow (PStr "abc") 0 6 :: [mkRow (PInt 2) 3 6]) []
  = raise (PricingError "Invalid product_id: abc").
Proof.
  apply (process_rows_aborts Main.engine [mkRow (PInt 1) 4 2] [mkRow (PInt 2) 3 6]
           (mkRow (PStr "abc") 0 6) [] (PricingError "Invalid product_id: abc")).
  - repeat constructor. eexists. reflexivity.
  - reflexivity.
Defined.
